(** * androidDCIMfix: classification, statistics and renaming of camera files

    A shallow embedding of [main.py].  File names are strings of 8-bit
    characters.  On a name of ASCII characters the embedding reads the
    regular expression's [\d] as Python does, as the ten digits [0] to
    [9]; Python's [\d] and [int] also read the decimal digits of other
    scripts, which these strings do not hold, so what is stated of the
    names the pattern does not match is stated of ASCII names.  The
    result of [os.stat] is given by the file system (a function from
    paths, for the paths it answers for), with each time stamp kept in
    the form the program reads it in, the [datetime] built by
    [datetime.fromtimestamp]. *)

From Stdlib Require Import String Ascii List Arith Bool Lia FinFun.
From Stdlib Require Import Decimal DecimalNat DecimalString.
Import ListNotations.

Local Open Scope string_scope.
Local Open Scope list_scope.
Local Open Scope nat_scope.

(** ** Strings as Python uses them here *)

Module Str.

Definition LF : ascii := "010"%char.

(** [str(n)] and the plain [{n}] of an f-string, for a natural number. *)
Definition dec (n : nat) : string := NilEmpty.string_of_uint (Nat.to_uint n).

(** [c * n] for a string [c]. *)
Fixpoint times (c : string) (n : nat) : string :=
  match n with
  | 0 => ""
  | S n' => (c ++ times c n')%string
  end.

(** [s.rjust(w, fill)] and [s.ljust(w)]: no truncation. *)
Definition rjust (w : nat) (fill : string) (s : string) : string :=
  (times fill (w - String.length s) ++ s)%string.

Definition ljust (w : nat) (s : string) : string :=
  (s ++ times " " (w - String.length s))%string.

(** The format specifications [{n:02d}], [{n:04d}] and [{n:06d}]. *)
Definition zpad (w : nat) (n : nat) : string := rjust w "0" (dec n).

Definition is_digit (c : ascii) : bool :=
  (48 <=? nat_of_ascii c) && (nat_of_ascii c <=? 57).

Definition is_lower (c : ascii) : bool :=
  (97 <=? nat_of_ascii c) && (nat_of_ascii c <=? 122).

Definition upper_char (c : ascii) : ascii :=
  if is_lower c then ascii_of_nat (nat_of_ascii c - 32) else c.

(** [s.upper()]. *)
Fixpoint upper (s : string) : string :=
  match s with
  | EmptyString => EmptyString
  | String c rest => String (upper_char c) (upper rest)
  end.

(** [os.path.basename]: what follows the last ["/"]. *)
Fixpoint after_last_sep (cur p : string) : string :=
  match p with
  | EmptyString => cur
  | String c rest =>
      if Ascii.eqb c "/" then after_last_sep rest rest
      else after_last_sep cur rest
  end.

Definition basename (p : string) : string := after_last_sep p p.

Fixpoint ends_with_sep (p : string) : bool :=
  match p with
  | EmptyString => false
  | String c EmptyString => Ascii.eqb c "/"
  | String _ rest => ends_with_sep rest
  end.

(** [os.path.join(a, b)]. *)
Definition join (a b : string) : string :=
  match b with
  | String "/" _ => b
  | _ =>
      match a with
      | EmptyString => b
      | _ => if ends_with_sep a then (a ++ b)%string
             else (a ++ "/" ++ b)%string
      end
  end.

(** [sep.join(l)]. *)
Fixpoint join_with (sep : string) (l : list string) : string :=
  match l with
  | [] => ""
  | [x] => x
  | x :: rest => (x ++ sep ++ join_with sep rest)%string
  end.

(** [x in l] for a list of strings. *)
Fixpoint mem (x : string) (l : list string) : bool :=
  match l with
  | [] => false
  | y :: rest => String.eqb y x || mem x rest
  end.

(** [max] of a non-empty argument list. *)
Definition max_of (n : nat) (l : list nat) : nat := fold_left Nat.max l n.

End Str.

(** ** Exceptions *)

Inductive exn : Set :=
| AttributeError   (* an attribute of [None] is read *)
| TypeError
| ValueError.

Inductive result (A : Type) : Type :=
| Ok (a : A)
| Raise (e : exn).

Arguments Ok {A} a.
Arguments Raise {A} e.

Definition bind {A B : Type} (m : result A) (k : A -> result B) : result B :=
  match m with
  | Ok a => k a
  | Raise e => Raise e
  end.

Notation "x <- m ;; k" := (bind m (fun x => k))
  (at level 61, m at next level, right associativity).

(** Reading an attribute through a reference that may be [None]. *)
Definition deref {A : Type} (o : option A) : result A :=
  match o with
  | Some a => Ok a
  | None => Raise AttributeError
  end.

(** ** Time stamps *)

Record datetime : Set := mk_datetime {
  year : nat;
  month : nat;
  day : nat;
  hour : nat;
  minute : nat;
  second : nat;
  microsecond : nat
}.

Module Datetime.

(** The tuple two [datetime] values are compared by. *)
Definition fields (d : datetime) : list nat :=
  [year d; month d; day d; hour d; minute d; second d; microsecond d].

Definition cmp (a b : datetime) : comparison :=
  list_compare Nat.compare (fields a) (fields b).

Definition ltb (a b : datetime) : bool :=
  match cmp a b with Lt => true | _ => false end.

Definition gtb (a b : datetime) : bool := ltb b a.

Definition leb (a b : datetime) : bool := negb (ltb b a).

(** The value with its sub-second part dropped. *)
Definition to_second (d : datetime) : datetime :=
  mk_datetime (year d) (month d) (day d) (hour d) (minute d) (second d) 0.

(** [str(d)]: ISO format with a space between date and time. *)
Definition str (d : datetime) : string :=
  (Str.zpad 4 (year d) ++ "-" ++ Str.zpad 2 (month d) ++ "-"
   ++ Str.zpad 2 (day d) ++ " " ++ Str.zpad 2 (hour d) ++ ":"
   ++ Str.zpad 2 (minute d) ++ ":" ++ Str.zpad 2 (second d)
   ++ match microsecond d with
      | 0 => ""
      | us => "." ++ Str.zpad 6 us
      end)%string.

End Datetime.

Record stat_result : Set := mk_stat {
  st_atime : datetime;
  st_mtime : datetime;
  st_ctime : datetime
}.

(** ** File records *)

Record Mediafile : Set := mk_Mediafile {
  _path : string;
  _filename : string;
  _stat : stat_result
}.

(** The two classes [RegularFile] is instantiated through.  Their
    constructors fix [head] and [extension]; the record keeps the class
    and reads both off it. *)
Inductive regular_class : Set := PictureFile | VideoFile.

Record RegularFile : Set := mk_RegularFile {
  media : Mediafile;
  class_of : regular_class;
  _index : nat;
  _convolution : nat
}.

Inductive file : Set :=
| Plain (m : Mediafile)
| Regular (r : RegularFile).

Section Construction.

Variable os_stat : string -> stat_result.

Definition Mediafile_init (path : string) : Mediafile :=
  {| _path := path; _filename := Str.basename path; _stat := os_stat path |}.

Definition PictureFile_init (path : string) (index convolution : nat)
  : RegularFile :=
  {| media := Mediafile_init path; class_of := PictureFile;
     _index := index; _convolution := convolution |}.

Definition VideoFile_init (path : string) (index convolution : nat)
  : RegularFile :=
  {| media := Mediafile_init path; class_of := VideoFile;
     _index := index; _convolution := convolution |}.

End Construction.

Definition head (r : RegularFile) : string :=
  match class_of r with
  | PictureFile => "IMG"
  | VideoFile => "VID"
  end.

Definition extension (r : RegularFile) : string :=
  match class_of r with
  | PictureFile => "jpg"
  | VideoFile => "mp4"
  end.

Definition base_of (f : file) : Mediafile :=
  match f with
  | Plain m => m
  | Regular r => media r
  end.

Definition path (f : file) : string := _path (base_of f).
Definition last_access (f : file) : datetime := st_atime (_stat (base_of f)).
Definition last_modification (f : file) : datetime :=
  st_mtime (_stat (base_of f)).
Definition last_metadata_change (f : file) : datetime :=
  st_ctime (_stat (base_of f)).

Definition set_index (value : nat) (r : RegularFile) : RegularFile :=
  {| media := media r; class_of := class_of r;
     _index := value; _convolution := _convolution r |}.

Definition set_convolution (value : nat) (r : RegularFile) : RegularFile :=
  {| media := media r; class_of := class_of r;
     _index := _index r; _convolution := value |}.

(** The date and time part of a generated name. *)
Definition stamp (d : datetime) : string :=
  (Str.dec (year d) ++ Str.zpad 2 (month d) ++ Str.zpad 2 (day d)
   ++ "_" ++ Str.zpad 2 (hour d) ++ Str.zpad 2 (minute d)
   ++ Str.zpad 2 (second d))%string.

(** [RegularFile.filename]. *)
Definition regular_filename (r : RegularFile) : string :=
  let lm := st_mtime (_stat (media r)) in
  match _convolution r with
  | 0 => (head r ++ "_" ++ stamp lm ++ "." ++ extension r)%string
  | c => (head r ++ "_" ++ stamp lm ++ "_" ++ Str.dec c ++ "."
          ++ extension r)%string
  end.

(** The [filename] property, by the class of the record; [str(file)] is
    the same string for every class. *)
Definition filename (f : file) : string :=
  match f with
  | Plain m => _filename m
  | Regular r => regular_filename r
  end.

Definition is_regular (f : file) : bool :=
  match f with
  | Regular _ => true
  | Plain _ => false
  end.

(** ** Regular expressions, as far as the classifier's pattern goes *)

Module Re.

Inductive regex : Set :=
| Eps
| Lit (c : ascii)                 (* one literal character *)
| Digit                           (* [\d] *)
| Seq (r1 r2 : regex)
| Alt (r1 r2 : regex)             (* [r1|r2], [r1] tried first *)
| Opt (r : regex)                 (* [r?], greedy *)
| Group (name : string) (r : regex)   (* [(?P<name>r)] *)
| Dollar.                         (* [$] *)

(** A literal word. *)
Fixpoint word (s : string) : regex :=
  match s with
  | EmptyString => Eps
  | String c rest => Seq (Lit c) (word rest)
  end.

(** [r{n}]. *)
Fixpoint exactly (n : nat) (r : regex) : regex :=
  match n with
  | 0 => Eps
  | S n' => Seq r (exactly n' r)
  end.

(** [r{0,n}], greedy. *)
Fixpoint at_most (n : nat) (r : regex) : regex :=
  match n with
  | 0 => Eps
  | S n' => Opt (Seq r (at_most n' r))
  end.

(** [r{lo,hi}] for [lo <= hi]. *)
Definition between (lo hi : nat) (r : regex) : regex :=
  Seq (exactly lo r) (at_most (hi - lo) r).

(** The named groups of a match, the most recently closed first. *)
Definition groups : Set := list (string * string).

(** What was read between input [inp] and its suffix [rest]. *)
Definition consumed (inp rest : string) : string :=
  substring 0 (String.length inp - String.length rest) inp.

(** A backtracking matcher in continuation-passing style: [k] is what
    remains of the pattern. *)
Fixpoint exec (r : regex) (inp : string) (g : groups)
    (k : string -> groups -> option groups) : option groups :=
  match r with
  | Eps => k inp g
  | Lit c =>
      match inp with
      | String x rest => if Ascii.eqb x c then k rest g else None
      | EmptyString => None
      end
  | Digit =>
      match inp with
      | String x rest => if Str.is_digit x then k rest g else None
      | EmptyString => None
      end
  | Seq r1 r2 => exec r1 inp g (fun mid g1 => exec r2 mid g1 k)
  | Alt r1 r2 =>
      match exec r1 inp g k with
      | Some m => Some m
      | None => exec r2 inp g k
      end
  | Opt r1 =>
      match exec r1 inp g k with
      | Some m => Some m
      | None => k inp g
      end
  | Group name r1 =>
      exec r1 inp g (fun rest g1 => k rest ((name, consumed inp rest) :: g1))
  | Dollar =>
      (* the end of the string, or just before a line feed that ends it *)
      match inp with
      | EmptyString => k inp g
      | String x EmptyString => if Ascii.eqb x Str.LF then k inp g else None
      | _ => None
      end
  end.

(** [re.match(r, s)]: a match anchored at the start of [s]. *)
Definition re_match (r : regex) (s : string) : option groups :=
  exec r s [] (fun _ g => Some g).

(** [m.group(name)]; [None] for a group that took no part. *)
Fixpoint group (m : groups) (name : string) : option string :=
  match m with
  | [] => None
  | (n, v) :: rest => if String.eqb n name then Some v else group rest name
  end.

End Re.

(** [int(s)] on what the classifier passes it, a non-empty run of
    decimal digits; on any other string the embedding raises
    [ValueError]. *)
Fixpoint int_digits (acc : nat) (s : string) : result nat :=
  match s with
  | EmptyString => Ok acc
  | String c rest =>
      if Str.is_digit c
      then int_digits (10 * acc + (nat_of_ascii c - 48)) rest
      else Raise ValueError
  end.

Definition int (s : string) : result nat :=
  match s with
  | EmptyString => Raise ValueError
  | _ => int_digits 0 s
  end.

(** ** The classifier *)

(** [(?P<head>DSC|MOV)_(?P<idx>\d{4})(_(?P<conv>\d{1,3}))?\.(?P<ext>JPG|mp4)$];
    the unnamed group around the optional part is never read. *)
Definition name_pattern : Re.regex :=
  Re.Seq (Re.Group "head" (Re.Alt (Re.word "DSC") (Re.word "MOV")))
 (Re.Seq (Re.Lit "_")
 (Re.Seq (Re.Group "idx" (Re.exactly 4 Re.Digit))
 (Re.Seq (Re.Opt (Re.Seq (Re.Lit "_")
                         (Re.Group "conv" (Re.between 1 3 Re.Digit))))
 (Re.Seq (Re.Lit ".")
 (Re.Seq (Re.Group "ext" (Re.Alt (Re.word "JPG") (Re.word "mp4")))
         Re.Dollar))))).

Section Classifier.

Variable os_stat : string -> stat_result.

(** The body of the loop of [parse_files]: the records yielded for one
    path. *)
Definition parse_file (path : string) : result (list file) :=
  match Re.re_match name_pattern (Str.basename path) with
  | None => Ok [Plain (Mediafile_init os_stat path)]
  | Some m =>
      h <- deref (Re.group m "head") ;;
      let head := Str.upper h in
      i <- match Re.group m "idx" with
           | Some s => int s
           | None => Raise TypeError
           end ;;
      c <- match Re.group m "conv" with
           | Some (String _ _ as s) => int s
           | _ => Ok 0
           end ;;
      if String.eqb head "DSC"
      then Ok [Regular (PictureFile_init os_stat path i c)]
      else if String.eqb head "MOV"
      then Ok [Regular (VideoFile_init os_stat path i c)]
      else Ok []
  end.

Fixpoint parse_files (filenames : list string) : result (list file) :=
  match filenames with
  | [] => Ok []
  | path :: rest =>
      fs <- parse_file path ;;
      more <- parse_files rest ;;
      Ok (fs ++ more)
  end.

End Classifier.

(** ** The statistics aggregator *)

Record Analysis : Set := mk_Analysis {
  min_atime : option file;
  max_atime : option file;
  min_mtime : option file;
  max_mtime : option file;
  min_ctime : option file;
  max_ctime : option file;
  min_convolution : option RegularFile;
  unusual_filenames : list Mediafile;
  total : nat
}.

Definition Analysis_init : Analysis :=
  {| min_atime := None; max_atime := None;
     min_mtime := None; max_mtime := None;
     min_ctime := None; max_ctime := None;
     min_convolution := None;
     unusual_filenames := [];
     total := 0 |}.

(** [cur is None or test(cur)]. *)
Definition unset_or {A : Type} (cur : option A) (test : A -> bool) : bool :=
  match cur with
  | None => true
  | Some c => test c
  end.

(** [Analysis.analyze]: every field is updated from its own old value
    only, so the sequence of assignments is one record. *)
Definition analyze (self : Analysis) (f : file) : Analysis :=
  {| total := total self + 1;
     min_atime :=
       if unset_or (min_atime self)
            (fun m => Datetime.gtb (last_access m) (last_access f))
       then Some f else min_atime self;
     max_atime :=
       if unset_or (max_atime self)
            (fun m => Datetime.ltb (last_access m) (last_access f))
       then Some f else max_atime self;
     min_mtime :=
       if unset_or (min_mtime self)
            (fun m => Datetime.gtb (last_modification m) (last_modification f))
       then Some f else min_mtime self;
     max_mtime :=
       if unset_or (max_mtime self)
            (fun m => Datetime.ltb (last_modification m) (last_modification f))
       then Some f else max_mtime self;
     min_ctime :=
       if unset_or (min_ctime self)
            (fun m => Datetime.gtb (last_metadata_change m)
                                   (last_metadata_change f))
       then Some f else min_ctime self;
     max_ctime :=
       if unset_or (max_ctime self)
            (fun m => Datetime.ltb (last_metadata_change m)
                                   (last_metadata_change f))
       then Some f else max_ctime self;
     min_convolution :=
       match f with
       | Regular r =>
           if unset_or (min_convolution self)
                (fun m => _convolution m <? _convolution r)
           then Some r else min_convolution self
       | Plain _ => min_convolution self
       end;
     unusual_filenames :=
       match f with
       | Regular _ => unusual_filenames self
       | Plain m => unusual_filenames self ++ [m]
       end |}.

(** [Analysis.perform_analysis], run to its end: the final aggregate and
    the records yielded. *)
Fixpoint perform_analysis (self : Analysis) (gen : list file)
  : Analysis * list file :=
  match gen with
  | [] => (self, [])
  | f :: rest =>
      let (final, yielded) := perform_analysis (analyze self f) rest in
      (final, f :: yielded)
  end.

(** [Analysis.print_time_table]: the lines printed. *)
Definition print_time_table (self : Analysis) : result (list string) :=
  let earliest_label := "Earliest:" in
  let latest_label := "Latest:" in
  let pad_col0 :=
    Nat.max (String.length earliest_label) (String.length latest_label) in
  min_a <- deref (min_atime self) ;;
  max_a <- deref (max_atime self) ;;
  min_m <- deref (min_mtime self) ;;
  max_m <- deref (max_mtime self) ;;
  min_c <- deref (min_ctime self) ;;
  max_c <- deref (max_ctime self) ;;
  let len := String.length in
  let pad_col1 :=
    Str.max_of (len (Datetime.str (last_access min_a)))
      [len (filename min_a); len (Datetime.str (last_access max_a));
       len (filename max_a)] in
  let pad_col2 :=
    Str.max_of (len (Datetime.str (last_modification min_m)))
      [len (filename min_m); len (Datetime.str (last_modification max_m));
       len (filename max_m)] in
  let pad_col3 :=
    Str.max_of (len (Datetime.str (last_metadata_change min_c)))
      [len (filename min_c); len (Datetime.str (last_metadata_change max_c));
       len (filename max_c)] in
  let row (label c1 c2 c3 : string) : string :=
    (label ++ " ┃ " ++ Str.ljust pad_col1 c1 ++ " │ "
     ++ Str.ljust pad_col2 c2 ++ " │ " ++ Str.ljust pad_col3 c3)%string in
  let rule (dash cross0 cross : string) : string :=
    (Str.times dash (pad_col0 + 1) ++ cross0
     ++ Str.times dash (pad_col1 + 2) ++ cross
     ++ Str.times dash (pad_col2 + 2) ++ cross
     ++ Str.times dash (pad_col3 + 2))%string in
  Ok [ row (Str.times " " pad_col0) "Access" "Modification" "Metadata change";
       rule "━" "╋" "┿";
       row (Str.rjust pad_col0 " " earliest_label)
           (filename min_a) (filename min_m) (filename min_c);
       row (Str.times " " pad_col0)
           (Datetime.str (last_access min_a))
           (Datetime.str (last_modification min_m))
           (Datetime.str (last_metadata_change min_c));
       rule "─" "╂" "┼";
       row (Str.rjust pad_col0 " " latest_label)
           (filename max_a) (filename max_m) (filename max_c);
       row (Str.times " " pad_col0)
           (Datetime.str (last_access max_a))
           (Datetime.str (last_modification max_m))
           (Datetime.str (last_metadata_change max_c)) ].

(** The [opt.analyze] branch of the script: the records it leaves in
    [files] and the lines it prints when no exception stops it. *)
Definition analyze_mode (files : list file)
  : result (list file * list string) :=
  let (analysis, files) := perform_analysis Analysis_init files in
  table <- print_time_table analysis ;;
  most <- deref (min_convolution analysis) ;;
  Ok (files,
      ["Analyzing media files";
       ("Number of files: " ++ Str.dec (List.length files))%string]
      ++ table
      ++ [("Minimum convolutions detected: " ++ Str.dec (_convolution most)
           ++ " (" ++ regular_filename most ++ ")")%string;
          ("Unusual file names ("
           ++ Str.dec (List.length (unusual_filenames analysis))
           ++ "):")%string;
          Str.join_with ", " (map _filename (unusual_filenames analysis))]).

(** ** The rename and copy planner *)

(** [sorted(files, key=lambda f: f.last_modification)]: a stable sort. *)
Fixpoint insert_by_mtime (f : file) (l : list file) : list file :=
  match l with
  | [] => [f]
  | g :: rest =>
      if Datetime.ltb (last_modification g) (last_modification f)
      then g :: insert_by_mtime f rest
      else f :: l
  end.

Fixpoint sorted (files : list file) : list file :=
  match files with
  | [] => []
  | f :: rest => insert_by_mtime f (sorted rest)
  end.

(** The state of the copy loop: its three counters, the names given so
    far, the [copyfile] calls made, the lines printed and the records as
    the loop has left them. *)
Record plan : Set := mk_plan {
  pics : nat;
  vids : nat;
  other : nat;
  new_filenames : list string;
  copied : list (string * string);
  printed : list string;
  handled : list file
}.

Definition plan_init : plan :=
  {| pics := 0; vids := 0; other := 0; new_filenames := [];
     copied := []; printed := []; handled := [] |}.

(** [while file.filename in new_filenames: file.convolution += 1], for at
    most [fuel] tests of the condition. *)
Fixpoint bump (fuel : nat) (new_filenames : list string) (r : RegularFile)
  : option RegularFile :=
  match fuel with
  | 0 => None
  | S fuel' =>
      if Str.mem (regular_filename r) new_filenames
      then bump fuel' new_filenames (set_convolution (_convolution r + 1) r)
      else Some r
  end.

Section Planner.

Variable fuel : nat.
Variable out_path : string.

(** What follows the branches: the copy, the name recorded, the line
    printed. *)
Definition emit (st : plan) (f : file) (p v o : nat) : plan :=
  let new_path := Str.join out_path (filename f) in
  {| pics := p; vids := v; other := o;
     new_filenames := new_filenames st ++ [filename f];
     copied := copied st ++ [(path f, new_path)];
     printed := printed st
       ++ [("Copied " ++ Str.basename (path f) ++ " to '" ++ new_path
            ++ "'")%string];
     handled := handled st ++ [f] |}.

(** One turn of the loop over [files]. *)
Definition copy_one (st : plan) (f : file) : option plan :=
  match f with
  | Regular r =>
      match class_of r with
      | PictureFile =>
          let p := pics st + 1 in
          match bump fuel (new_filenames st)
                  (set_convolution 0 (set_index p r)) with
          | Some r' => Some (emit st (Regular r') p (vids st) (other st))
          | None => None
          end
      | VideoFile =>
          let v := vids st + 1 in
          match bump fuel (new_filenames st)
                  (set_convolution 0 (set_index v r)) with
          | Some r' => Some (emit st (Regular r') (pics st) v (other st))
          | None => None
          end
      end
  | Plain _ => Some (emit st f (pics st) (vids st) (other st + 1))
  end.

Fixpoint copy_loop (st : plan) (files : list file) : option plan :=
  match files with
  | [] => Some st
  | f :: rest =>
      match copy_one st f with
      | Some st' => copy_loop st' rest
      | None => None
      end
  end.

(** The [opt.out] branch of the script, for a destination directory
    that exists or can be made. *)
Definition out_mode (files : list file) : option plan :=
  match copy_loop plan_init (sorted files) with
  | Some st =>
      Some {| pics := pics st; vids := vids st; other := other st;
              new_filenames := new_filenames st;
              copied := copied st;
              printed :=
                [("Writing files to '" ++ out_path ++ "'")%string]
                ++ printed st
                ++ [("Copied " ++ Str.dec (pics st) ++ " pictures, "
                     ++ Str.dec (vids st) ++ " videos and "
                     ++ Str.dec (other st) ++ " other files to '"
                     ++ out_path ++ "'")%string];
              handled := handled st |}
  | None => None
  end.

End Planner.

(** ** Notions the statements are written in *)

(** What a pattern accepts: [denote r txt rest g g'] holds when [r] can
    read the text [txt] with [rest] following it, taking the groups from
    [g] to [g']. *)
Fixpoint denote (r : Re.regex) (txt rest : string) (g g' : Re.groups)
  : Prop :=
  match r with
  | Re.Eps => txt = "" /\ g' = g
  | Re.Lit c => txt = String c "" /\ g' = g
  | Re.Digit =>
      exists x, txt = String x "" /\ Str.is_digit x = true /\ g' = g
  | Re.Seq r1 r2 =>
      exists t1 t2 g1,
        txt = (t1 ++ t2)%string
        /\ denote r1 t1 (t2 ++ rest)%string g g1
        /\ denote r2 t2 rest g1 g'
  | Re.Alt r1 r2 => denote r1 txt rest g g' \/ denote r2 txt rest g g'
  | Re.Opt r1 => denote r1 txt rest g g' \/ (txt = "" /\ g' = g)
  | Re.Group name r1 =>
      exists g1, denote r1 txt rest g g1 /\ g' = (name, txt) :: g1
  | Re.Dollar =>
      txt = "" /\ g' = g /\ (rest = "" \/ rest = String Str.LF "")
  end.

Fixpoint all_digits (s : string) : bool :=
  match s with
  | EmptyString => true
  | String c rest => Str.is_digit c && all_digits rest
  end.

(** A run of between [lo] and [hi] decimal digits. *)
Definition digit_run (lo hi : nat) (s : string) : Prop :=
  lo <= String.length s <= hi /\ all_digits s = true.

(** The grammar of camera names in the specification's words,
    [{head}_{4 digits}[_{1-3 digits}].{JPG|mp4}], for a given head
    token. *)
Inductive spec_grammar (head : string) : string -> Prop :=
| grammar_plain (idx ext : string) :
    digit_run 4 4 idx ->
    ext = "JPG" \/ ext = "mp4" ->
    spec_grammar head (head ++ "_" ++ idx ++ "." ++ ext)%string
| grammar_convolution (idx conv ext : string) :
    digit_run 4 4 idx ->
    digit_run 1 3 conv ->
    ext = "JPG" \/ ext = "mp4" ->
    spec_grammar head (head ++ "_" ++ idx ++ "_" ++ conv ++ "." ++ ext)%string.

(** A name of the grammar, or such a name with one line feed after it:
    what the pattern's [$] lets through. *)
Definition accepted (head name : string) : Prop :=
  spec_grammar head name
  \/ exists g, spec_grammar head g /\ name = (g ++ String Str.LF "")%string.

Definition is_picture (f : file) : Prop :=
  exists r, f = Regular r /\ class_of r = PictureFile.

Definition is_video (f : file) : Prop :=
  exists r, f = Regular r /\ class_of r = VideoFile.

(** Two strings equal up to the case of their letters. *)
Definition same_ignoring_case (a b : string) : Prop :=
  Str.upper a = Str.upper b.

(** Trackers: [x] is the first record of [files] whose key is least,
    respectively greatest. *)
Definition first_least (key : file -> datetime) (files : list file)
    (x : file) : Prop :=
  exists before after,
    files = before ++ x :: after
    /\ (forall y, In y before -> Datetime.ltb (key x) (key y) = true)
    /\ (forall y, In y after -> Datetime.leb (key x) (key y) = true).

Definition first_greatest (key : file -> datetime) (files : list file)
    (x : file) : Prop :=
  exists before after,
    files = before ++ x :: after
    /\ (forall y, In y before -> Datetime.ltb (key y) (key x) = true)
    /\ (forall y, In y after -> Datetime.leb (key y) (key x) = true).

(** [r] is the first classified record of [files] whose convolution is
    greatest among the classified records. *)
Definition first_most_convoluted (files : list file) (r : RegularFile)
  : Prop :=
  exists before after,
    files = before ++ Regular r :: after
    /\ (forall r', In (Regular r') before -> _convolution r' < _convolution r)
    /\ (forall r', In (Regular r') after -> _convolution r' <= _convolution r).

Section Tracking.

Variables A B : Type.
Variable candidate : A -> option B.
(** [beats new cur]: the test under which [new] replaces [cur]. *)
Variable beats : B -> B -> bool.

Definition track (cur : option B) (a : A) : option B :=
  match candidate a with
  | None => cur
  | Some b => if unset_or cur (beats b) then Some b else cur
  end.

Definition first_best (l : list A) (x : B) : Prop :=
  exists before a after,
    l = before ++ a :: after
    /\ candidate a = Some x
    /\ (forall y b, In y before -> candidate y = Some b -> beats x b = true)
    /\ (forall y b, In y after -> candidate y = Some b -> beats b x = false).

End Tracking.

Arguments track {A B} candidate beats cur a.
Arguments first_best {A B} candidate beats l x.

Definition generic_records (files : list file) : list Mediafile :=
  flat_map (fun f => match f with Plain m => [m] | Regular _ => [] end) files.

Definition regular_records (files : list file) : list RegularFile :=
  flat_map (fun f => match f with Plain _ => [] | Regular r => [r] end) files.

(** Sorted input of the planner: ascending modification times. *)
Fixpoint ascending (files : list file) : Prop :=
  match files with
  | [] => True
  | f :: rest =>
      match rest with
      | [] => True
      | g :: _ =>
          Datetime.leb (last_modification f) (last_modification g) = true
      end /\ ascending rest
  end.

(** Two records that differ at most in the two fields the planner
    assigns, [index] and [convolution]. *)
Definition same_source (f g : file) : Prop :=
  match f, g with
  | Plain m, Plain m' => m = m'
  | Regular r, Regular r' => media r = media r' /\ class_of r = class_of r'
  | _, _ => False
  end.

(** The name as a function of class, time stamp to the second and
    convolution. *)
Definition name_of (c : regular_class) (d : datetime) (conv : nat) : string :=
  regular_filename
    {| media := {| _path := ""; _filename := "";
                   _stat := mk_stat d (Datetime.to_second d) d |};
       class_of := c; _index := 0; _convolution := conv |}.


(** A name put together from its parts. *)
Definition camera_name (h idx : string) (conv : option string) (ext : string)
  : string :=
  (h ++ "_" ++ idx
   ++ match conv with Some c => "_" ++ c | None => "" end
   ++ "." ++ ext)%string.

(** The groups of a match of such a name. *)
Definition camera_groups (h idx : string) (conv : option string)
    (ext : string) : Re.groups :=
  ("ext", ext)
  :: match conv with Some c => [("conv", c)] | None => [] end
  ++ [("idx", idx); ("head", h)].

(** The parts of a name are well formed. *)
Definition camera_parts (h idx : string) (conv : option string)
    (ext : string) : Prop :=
  (h = "DSC" \/ h = "MOV")
  /\ digit_run 4 4 idx
  /\ match conv with Some c => digit_run 1 3 c | None => True end
  /\ (ext = "JPG" \/ ext = "mp4").

(** The class a head token of the pattern stands for. *)
Definition class_of_head (h : string) : regular_class :=
  if String.eqb h "DSC" then PictureFile else VideoFile.

(** A file system in which every path has the same time stamps. *)
Definition still_stat (d : datetime) : string -> stat_result :=
  fun _ => mk_stat d d d.

Definition noon : datetime := mk_datetime 2020 1 1 12 0 0 0.

(** A camera name with a line feed after it, and one with a lower-case
    head token. *)
Definition name_with_line_feed : string :=
  ("DSC_0001.JPG" ++ String Str.LF "")%string.

Definition name_in_lower_case : string := "dsc_0001.JPG".

(** The trackers of [Analysis.analyze] as instances of [track]. *)
Definition every (f : file) : option file := Some f.

Definition earlier (key : file -> datetime) (new cur : file) : bool :=
  Datetime.gtb (key cur) (key new).

Definition later (key : file -> datetime) (new cur : file) : bool :=
  Datetime.ltb (key cur) (key new).

Definition classified (f : file) : option RegularFile :=
  match f with
  | Regular r => Some r
  | Plain _ => None
  end.

Definition more_convoluted (new cur : RegularFile) : bool :=
  _convolution cur <? _convolution new.

(** The aggregate after a run over [files]. *)
Definition analysis_of (files : list file) : Analysis :=
  fst (perform_analysis Analysis_init files).

Definition sample_picture (idx conv : nat) (d : datetime) : file :=
  Regular (PictureFile_init (still_stat d) "DCIM/DSC_0001.JPG" idx conv).

Definition sample_generic (name : string) (d : datetime) : file :=
  Plain (Mediafile_init (still_stat d) name).

(** The convolution a record carries; generic records carry none. *)
Definition convolution_of (f : file) : nat :=
  match f with
  | Regular r => _convolution r
  | Plain _ => 0
  end.

(** A directory in which a picture of the camera lies next to a file
    that already bears the name the planner generates for the picture,
    and was modified a second after it. *)
Definition colliding_stat (p : string) : stat_result :=
  if String.eqb p "DCIM/DSC_0001.JPG"
  then still_stat noon p
  else still_stat (mk_datetime 2020 1 1 12 0 1 0) p.

Definition colliding_listing : list string :=
  ["DCIM/DSC_0001.JPG"; "DCIM/IMG_20200101_120000.jpg"].

Definition colliding_files : list file :=
  match parse_files colliding_stat colliding_listing with
  | Ok l => l
  | Raise _ => []
  end.

(** Three pictures taken within one second. *)
Definition burst : list file :=
  [ Regular (PictureFile_init (still_stat noon) "DCIM/DSC_0001.JPG" 1 0);
    Regular (PictureFile_init (still_stat noon) "DCIM/DSC_0002.JPG" 2 0);
    Regular (PictureFile_init (still_stat noon) "DCIM/DSC_0002_1.JPG" 2 1) ].

(** A generic file and two pictures, the second with a convolution. *)
Definition sample_run : list file :=
  [ sample_generic "DCIM/random.txt" noon;
    sample_picture 1 0 noon;
    sample_picture 2 1 (mk_datetime 2020 1 1 12 0 0 500) ].

From Stdlib Require Import Permutation.

(** ** The script as a whole *)

(** What the [opt.out] branch came to. *)
Inductive copying : Set :=
| NotAsked                 (* no [--out], or an empty one *)
| OutOfFuel                (* a collision loop was cut short *)
| Planned (st : plan).

(** The body of the script for its one positional argument [path]: the
    lines the analysis prints and what the copying came to, or the
    exception that ends the run.  [os_listdir] is the listing of the
    directory. *)
Definition main (fuel : nat) (os_listdir : string -> list string)
    (os_stat : string -> stat_result)
    (opt_analyze : bool) (opt_out : option string) (path : string)
  : result (list string * copying) :=
  files <- parse_files os_stat (map (Str.join path) (os_listdir path)) ;;
  r <- (if opt_analyze then analyze_mode files else Ok (files, [])) ;;
  let (files, lines) := r in
  match opt_out with
  | Some (String _ _ as out_path) =>
      match out_mode fuel out_path files with
      | Some st => Ok (lines, Planned st)
      | None => Ok (lines, OutOfFuel)
      end
  | _ => Ok (lines, NotAsked)
  end.

(** ** Notions of the further properties *)

(** A name with no ["/"] in it, as a directory listing gives. *)
Fixpoint no_sep (s : string) : bool :=
  match s with
  | EmptyString => true
  | String c rest => negb (Ascii.eqb c "/") && no_sep rest
  end.

(** The number a run of decimal digits stands for, as the standard
    library reads it. *)
Definition decimal_value (s : string) : option nat :=
  option_map Nat.of_uint (NilEmpty.uint_of_string s).

Definition class_eqb (a b : regular_class) : bool :=
  match a, b with
  | PictureFile, PictureFile => true
  | VideoFile, VideoFile => true
  | _, _ => false
  end.

(** The records of one class, and the indexes they carry. *)
Definition of_class (c : regular_class) (files : list file)
  : list RegularFile :=
  filter (fun r => class_eqb (class_of r) c) (regular_records files).

Definition indexes_of (c : regular_class) (files : list file) : list nat :=
  map _index (of_class c files).

(** No classified record bears a name given to a record before it. *)
Definition classified_names_new (l : list file) : Prop :=
  forall before r after,
    l = before ++ Regular r :: after ->
    ~ In (regular_filename r) (map filename before).

(** A time stamp whose fields below the year have at most two digits,
    as every calendar date and time of day has. *)
Definition two_digit_fields (d : datetime) : Prop :=
  month d < 100 /\ day d < 100 /\ hour d < 100 /\ minute d < 100
  /\ second d < 100.

(** The times of the records of a run are pairwise different. *)
Definition distinct_mtimes (files : list file) : Prop :=
  NoDup (map last_modification files).

(** A name that does not begin with ["/"]. *)
Definition relative (s : string) : Prop :=
  match s with
  | EmptyString => True
  | String c _ => c <> "/"%char
  end.

(** The parts of a generated name after its head: the digits of the
    date, those of the time of day, and what follows them. *)
Definition date_digits (d : datetime) : string :=
  (Str.dec (year d) ++ Str.zpad 2 (month d) ++ Str.zpad 2 (day d))%string.

Definition time_digits (d : datetime) : string :=
  (Str.zpad 2 (hour d) ++ Str.zpad 2 (minute d) ++ Str.zpad 2 (second d))%string.

Definition name_suffix (r : RegularFile) : string :=
  match _convolution r with
  | 0 => ("." ++ extension r)%string
  | c => ("_" ++ Str.dec c ++ "." ++ extension r)%string
  end.

(** [a == b] for two [datetime] values. *)
Definition same_time (a b : datetime) : bool :=
  match Datetime.cmp a b with
  | Eq => true
  | _ => false
  end.

(** The records of a run modified at the time [d]. *)
Definition modified_at (d : datetime) (files : list file) : list file :=
  filter (fun f => same_time d (last_modification f)) files.

(** A listing with a picture of the camera in it, and one without. *)
Definition camera_listing : string -> list string :=
  fun _ => ["DSC_0001.JPG"; "random.txt"].

Definition plain_listing : string -> list string :=
  fun _ => ["random.txt"; "notes.md"].

(** Three records modified at different times, latest first. *)
Definition spread : list file :=
  [ sample_generic "DCIM/random.txt" (mk_datetime 2020 1 1 12 0 2 0);
    sample_picture 1 0 (mk_datetime 2020 1 1 12 0 1 0);
    sample_picture 2 0 noon ].

(** A name of ASCII characters only. *)
Fixpoint is_ascii (s : string) : bool :=
  match s with
  | EmptyString => true
  | String c rest => (nat_of_ascii c <? 128) && is_ascii rest
  end.

(** ** The copy loop with a [copyfile] that may raise *)



Section PlannerWithCopy.

Variable fuel : nat.
Variable out_path : string.

(** Whether [copyfile(src, dst)] returns, after the calls that have
    returned before it. *)
Variable copyfile_returns : list (string * string) -> string -> string -> bool.



End PlannerWithCopy.


(** * Properties *)

(** ** Strings *)

Module StrFacts.

Lemma append_nil_r (s : string) : (s ++ "")%string = s.
Proof. induction s as [|c s IH]; simpl; congruence. Qed.

Lemma append_assoc (a b c : string) :
  ((a ++ b) ++ c)%string = (a ++ (b ++ c))%string.
Proof. induction a as [|x a IH]; simpl; congruence. Qed.

Lemma length_append (a b : string) :
  String.length (a ++ b) = String.length a + String.length b.
Proof. induction a as [|x a IH]; simpl; congruence. Qed.

Lemma append_inv_head (a b c : string) :
  (a ++ b)%string = (a ++ c)%string -> b = c.
Proof.
  induction a as [|x a IH]; simpl; intros H; [assumption|].
  injection H as H. auto.
Qed.

(** Two prefixes of equal length of one string are equal, and so are
    the rests. *)
Lemma append_eq_length (a b c d : string) :
  (a ++ b)%string = (c ++ d)%string ->
  String.length a = String.length c ->
  a = c /\ b = d.
Proof.
  revert c. induction a as [|x a IH]; intros [|y c]; simpl; intros H L;
    try discriminate.
  - split; [reflexivity | assumption].
  - injection H as -> H. injection L as L.
    destruct (IH c H L) as [-> ->]. split; reflexivity.
Qed.

Lemma append_inv_tail (a b c : string) :
  (a ++ c)%string = (b ++ c)%string -> a = b.
Proof.
  intros H. apply (append_eq_length a c b c H).
  apply (f_equal String.length) in H. rewrite !length_append in H. lia.
Qed.

Lemma mem_In (x : string) (l : list string) :
  Str.mem x l = true <-> In x l.
Proof.
  induction l as [|y l IH]; simpl.
  - split; [discriminate | contradiction].
  - rewrite orb_true_iff, String.eqb_eq, IH. reflexivity.
Qed.

Lemma mem_not_In (x : string) (l : list string) :
  Str.mem x l = false <-> ~ In x l.
Proof.
  rewrite <- mem_In. destruct (Str.mem x l); split; congruence.
Qed.

(** [str] of a number determines the number. *)
Lemma dec_inj (n m : nat) : Str.dec n = Str.dec m -> n = m.
Proof.
  unfold Str.dec. intros H.
  assert (E : Some (Nat.to_uint n) = Some (Nat.to_uint m)).
  { rewrite <- !NilEmpty.usu. now rewrite H. }
  injection E as E.
  rewrite <- (Unsigned.of_to n), <- (Unsigned.of_to m). now rewrite E.
Qed.

End StrFacts.

(** ** Generated names *)

Lemma head_class (r1 r2 : RegularFile) :
  head r1 = head r2 -> class_of r1 = class_of r2.
Proof.
  unfold head. destruct (class_of r1), (class_of r2);
    intros H; try reflexivity; discriminate H.
Qed.

Lemma stamp_to_second (d : datetime) : stamp (Datetime.to_second d) = stamp d.
Proof. reflexivity. Qed.

Lemma regular_filename_name_of (r : RegularFile) :
  regular_filename r
  = name_of (class_of r) (st_mtime (_stat (media r))) (_convolution r).
Proof. reflexivity. Qed.

Lemma name_of_to_second (c : regular_class) (d : datetime) (conv : nat) :
  name_of c (Datetime.to_second d) conv = name_of c d conv.
Proof. reflexivity. Qed.

(** For one record, different convolutions give different names. *)
Lemma name_of_inj (c : regular_class) (d : datetime) (n m : nat) :
  name_of c d n = name_of c d m -> n = m.
Proof.
  unfold name_of, regular_filename; simpl.
  set (h := head _). set (e := extension _).
  set (s := stamp _).
  destruct n as [|n], m as [|m]; intros H; try reflexivity;
    apply StrFacts.append_inv_head in H; simpl in H; injection H as H;
    apply StrFacts.append_inv_head in H; try discriminate H.
  injection H as H.
  apply StrFacts.append_inv_tail in H. now apply StrFacts.dec_inj.
Qed.

(** C4.  The generated name of a classified record is a function of its
    head, its modification time to the second and its convolution: two
    records that agree on the three have the same name, and assigning
    another index to a record leaves its name as it was. *)
Theorem filename_function_of_head_time_convolution
    (r1 r2 : RegularFile) (value : nat) :
  head r1 = head r2 ->
  Datetime.to_second (st_mtime (_stat (media r1)))
  = Datetime.to_second (st_mtime (_stat (media r2))) ->
  _convolution r1 = _convolution r2 ->
  regular_filename r1 = regular_filename r2
  /\ regular_filename (set_index value r1) = regular_filename r1.
Proof.
  intros Hh Ht Hc. split; [|reflexivity].
  rewrite !regular_filename_name_of.
  rewrite (head_class _ _ Hh), Hc.
  rewrite <- (name_of_to_second _ (st_mtime (_stat (media r1)))), Ht.
  apply name_of_to_second.
Qed.

(** ** The matcher against what a pattern accepts *)

Module ReFacts.

Lemma substring_prefix (txt rest : string) :
  substring 0 (String.length txt) (txt ++ rest) = txt.
Proof. induction txt as [|c txt IH]; simpl; [now destruct rest | congruence]. Qed.

Lemma consumed_append (txt rest : string) :
  Re.consumed (txt ++ rest) rest = txt.
Proof.
  unfold Re.consumed. rewrite StrFacts.length_append.
  replace (String.length txt + String.length rest - String.length rest)
    with (String.length txt) by lia.
  apply substring_prefix.
Qed.

(** Whatever the matcher returns comes from a reading the pattern
    accepts. *)
Lemma exec_sound (r : Re.regex) :
  forall inp g k m,
    Re.exec r inp g k = Some m ->
    exists txt rest g',
      inp = (txt ++ rest)%string /\ denote r txt rest g g'
      /\ k rest g' = Some m.
Proof.
  induction r as [|c| |r1 IH1 r2 IH2|r1 IH1 r2 IH2|r1 IH1|name r1 IH1|];
    intros inp g k m H; simpl in H.
  - exists "", inp, g. simpl. auto.
  - destruct inp as [|x rest]; [discriminate|].
    destruct (Ascii.eqb_spec x c) as [->|]; [|discriminate].
    exists (String c ""), rest, g. simpl. auto.
  - destruct inp as [|x rest]; [discriminate|].
    destruct (Str.is_digit x) eqn:D; [|discriminate].
    exists (String x ""), rest, g. simpl.
    split; [reflexivity|]. split; [|assumption]. exists x. auto.
  - apply IH1 in H. destruct H as (t1 & rest1 & g1 & -> & D1 & H).
    apply IH2 in H. destruct H as (t2 & rest & g' & -> & D2 & H).
    exists (t1 ++ t2)%string, rest, g'.
    rewrite StrFacts.append_assoc. simpl. eauto 10.
  - destruct (Re.exec r1 inp g k) as [m1|] eqn:E1.
    + injection H as <-. apply IH1 in E1.
      destruct E1 as (txt & rest & g' & -> & D & K).
      exists txt, rest, g'. simpl. auto.
    + apply IH2 in H. destruct H as (txt & rest & g' & -> & D & K).
      exists txt, rest, g'. simpl. auto.
  - destruct (Re.exec r1 inp g k) as [m1|] eqn:E1.
    + injection H as <-. apply IH1 in E1.
      destruct E1 as (txt & rest & g' & -> & D & K).
      exists txt, rest, g'. simpl. auto.
    + exists "", inp, g. simpl. auto.
  - apply IH1 in H. destruct H as (txt & rest & g1 & -> & D & K).
    rewrite consumed_append in K.
    exists txt, rest, ((name, txt) :: g1). simpl. eauto.
  - destruct inp as [|x [|y rest]]; try discriminate.
    + exists "", "", g. simpl. repeat split; auto.
    + destruct (Ascii.eqb_spec x Str.LF) as [->|]; [|discriminate].
      exists "", (String Str.LF ""), g. simpl. repeat split; auto.
Qed.

(** A reading the pattern accepts, with a continuation that goes
    through, makes the matcher return a match. *)
Lemma exec_complete (r : Re.regex) :
  forall txt rest g g' k,
    denote r txt rest g g' ->
    k rest g' <> None ->
    Re.exec r (txt ++ rest) g k <> None.
Proof.
  induction r as [|c| |r1 IH1 r2 IH2|r1 IH1 r2 IH2|r1 IH1|name r1 IH1|];
    intros txt rest g g' k D K; simpl in D |- *.
  - destruct D as [-> ->]. exact K.
  - destruct D as [-> ->]. simpl. now rewrite Ascii.eqb_refl.
  - destruct D as (x & -> & Dx & ->). simpl. now rewrite Dx.
  - destruct D as (t1 & t2 & g1 & -> & D1 & D2).
    rewrite StrFacts.append_assoc.
    apply (IH1 _ _ _ _ _ D1). now apply (IH2 _ _ _ _ _ D2).
  - destruct (Re.exec r1 (txt ++ rest) g k) eqn:E1; [discriminate|].
    destruct D as [D|D].
    + exfalso. now apply (IH1 _ _ _ _ _ D K).
    + now apply (IH2 _ _ _ _ _ D).
  - destruct (Re.exec r1 (txt ++ rest) g k) eqn:E1; [discriminate|].
    destruct D as [D|[-> ->]].
    + exfalso. now apply (IH1 _ _ _ _ _ D K).
    + exact K.
  - destruct D as (g1 & D & ->).
    apply (IH1 _ _ _ _ _ D). now rewrite consumed_append.
  - destruct D as (-> & -> & [->| ->]); simpl; exact K.
Qed.

End ReFacts.

(** ** The classifier's pattern *)

Module PatternFacts.

Import StrFacts.

Lemma all_digits_append (a b : string) :
  all_digits (a ++ b) = all_digits a && all_digits b.
Proof.
  induction a as [|c a IH]; simpl; [reflexivity|].
  now rewrite IH, andb_assoc.
Qed.

(** A string falls into a prefix of any length up to its own and a
    rest. *)
Lemma split_at (n : nat) (s : string) :
  n <= String.length s ->
  exists a b, s = (a ++ b)%string /\ String.length a = n.
Proof.
  revert s. induction n as [|n IH]; intros s L.
  - exists "", s. auto.
  - destruct s as [|c s]; simpl in L; [lia|].
    destruct (IH s) as (a & b & -> & La); [lia|].
    exists (String c a), b. simpl. auto.
Qed.

Lemma denote_word (w : string) :
  forall txt rest g g',
    denote (Re.word w) txt rest g g' <-> txt = w /\ g' = g.
Proof.
  induction w as [|c w IH]; intros txt rest g g'; simpl.
  - reflexivity.
  - split.
    + intros (t1 & t2 & g1 & -> & [-> ->] & D).
      apply IH in D. destruct D as [-> ->]. auto.
    + intros [-> ->]. exists (String c ""), w, g.
      repeat split. now apply IH.
Qed.

Lemma denote_exactly (n : nat) :
  forall txt rest g g',
    denote (Re.exactly n Re.Digit) txt rest g g'
    <-> (String.length txt = n /\ all_digits txt = true) /\ g' = g.
Proof.
  induction n as [|n IH]; intros txt rest g g'; simpl.
  - split.
    + intros [-> ->]. auto.
    + intros [[L _] ->]. destruct txt; [auto | discriminate L].
  - split.
    + intros (t1 & t2 & g1 & -> & (x & -> & Dx & ->) & D).
      apply IH in D. destruct D as [[L Dt] ->]. simpl.
      rewrite Dx, Dt, L. auto.
    + intros [[L D] ->]. destruct txt as [|x txt]; [discriminate L|].
      simpl in L, D. apply andb_true_iff in D. destruct D as [Dx Dt].
      exists (String x ""), txt, g. repeat split.
      * exists x. auto.
      * apply IH. repeat split; [lia | assumption].
Qed.

Lemma denote_at_most (n : nat) :
  forall txt rest g g',
    denote (Re.at_most n Re.Digit) txt rest g g'
    <-> (String.length txt <= n /\ all_digits txt = true) /\ g' = g.
Proof.
  induction n as [|n IH]; intros txt rest g g'; simpl.
  - split.
    + intros [-> ->]. auto.
    + intros [[L _] ->]. destruct txt; [auto | simpl in L; lia].
  - split.
    + intros [(t1 & t2 & g1 & -> & (x & -> & Dx & ->) & D) | [-> ->]].
      * apply IH in D. destruct D as [[L Dt] ->]. simpl.
        rewrite Dx, Dt. repeat split. lia.
      * simpl. repeat split. lia.
    + intros [[L D] ->]. destruct txt as [|x txt]; [right; auto|].
      simpl in L, D. apply andb_true_iff in D. destruct D as [Dx Dt].
      left. exists (String x ""), txt, g. repeat split.
      * exists x. auto.
      * apply IH. repeat split; [lia | assumption].
Qed.

Lemma denote_between (lo hi : nat) :
  lo <= hi ->
  forall txt rest g g',
    denote (Re.between lo hi Re.Digit) txt rest g g'
    <-> digit_run lo hi txt /\ g' = g.
Proof.
  intros Le txt rest g g'. unfold Re.between, digit_run.
  cbn [denote]. split.
  - intros (t1 & t2 & g1 & -> & D1 & D2).
    apply denote_exactly in D1. apply denote_at_most in D2.
    destruct D1 as [[L1 A1] ->], D2 as [[L2 A2] ->].
    rewrite length_append, all_digits_append, A1, A2. repeat split; lia.
  - intros [[L D] ->].
    destruct (split_at lo txt) as (a & b & -> & La); [lia|].
    rewrite length_append in L. rewrite all_digits_append in D.
    apply andb_true_iff in D. destruct D as [Da Db].
    exists a, b, g. repeat split.
    + apply denote_exactly. auto.
    + apply denote_at_most. repeat split; [lia | assumption].
Qed.

Ltac open_denote :=
  repeat match goal with
  | H : exists _, _ |- _ => destruct H
  | H : _ /\ _ |- _ => destruct H
  | H : denote (Re.word _) _ _ _ _ |- _ => apply denote_word in H
  | H : denote (Re.exactly _ Re.Digit) _ _ _ _ |- _ =>
      apply denote_exactly in H
  | H : denote (Re.between 1 3 Re.Digit) _ _ _ _ |- _ =>
      apply (denote_between 1 3) in H; [|lia]
  | H : _ \/ _ |- _ => destruct H
  end; subst.

(** The pattern accepts the names put together from well-formed parts,
    at the end of the string or before a last line feed, and the groups
    of a match are those parts. *)
Lemma name_pattern_denote (txt rest : string) (m : Re.groups) :
  denote name_pattern txt rest [] m
  <-> exists h idx conv ext,
        camera_parts h idx conv ext
        /\ (rest = "" \/ rest = String Str.LF "")
        /\ txt = camera_name h idx conv ext
        /\ m = camera_groups h idx conv ext.
Proof.
  unfold name_pattern, camera_parts. split.
  - intros D. cbn [denote] in D. open_denote;
      match goal with
      | |- exists h idx conv ext, _ /\ _ /\ _ /\ ?m = _ =>
          match m with
          | [("ext", ?e); ("conv", ?c); ("idx", ?i); ("head", ?h)] =>
              exists h, i, (Some c), e
          | [("ext", ?e); ("idx", ?i); ("head", ?h)] =>
              exists h, i, None, e
          end
      end;
      unfold digit_run in *; repeat split; try reflexivity; try tauto; lia.
  - intros (h & idx & conv & ext & (Hh & Hi & Hc & He) & Hr & -> & ->).
    unfold camera_name, camera_groups. cbn [denote].
    set (gh := [("head", h)]).
    set (gi := ("idx", idx) :: gh).
    set (cs := match conv with Some c => [("conv", c)] | None => [] end).
    set (ct := match conv with Some c => ("_" ++ c)%string | None => "" end).
    exists h, ("_" ++ idx ++ ct ++ "." ++ ext)%string, gh.
    split; [reflexivity|]. split.
    { exists []. split; [|reflexivity].
      destruct Hh as [->| ->]; [left|right]; apply denote_word; auto. }
    exists "_", (idx ++ ct ++ "." ++ ext)%string, gh.
    split; [reflexivity|]. split; [auto|].
    exists idx, (ct ++ "." ++ ext)%string, gi.
    split; [reflexivity|]. split.
    { exists gh. split; [|reflexivity]. apply denote_exactly.
      unfold digit_run in Hi. repeat split; [lia | tauto]. }
    exists ct, ("." ++ ext)%string, (cs ++ gi).
    split; [reflexivity|]. split.
    { subst ct cs. destruct conv as [c|].
      - left. exists "_", c, gi. split; [reflexivity|]. split; [auto|].
        exists gi. split; [|reflexivity]. apply denote_between; [lia | auto].
      - right. auto. }
    exists ".", ext, (cs ++ gi).
    split; [reflexivity|]. split; [auto|].
    exists ext, "", (("ext", ext) :: cs ++ gi).
    split; [symmetry; apply append_nil_r|]. split.
    { exists (cs ++ gi). split; [|reflexivity].
      destruct He as [->| ->]; [left|right]; apply denote_word; auto. }
    repeat split; auto.
Qed.

End PatternFacts.

(** ** The classifier *)

Module ClassifierFacts.

Import StrFacts PatternFacts.

Lemma re_match_sound (s : string) (m : Re.groups) :
  Re.re_match name_pattern s = Some m ->
  exists h idx conv ext tail,
    camera_parts h idx conv ext
    /\ (tail = "" \/ tail = String Str.LF "")
    /\ s = (camera_name h idx conv ext ++ tail)%string
    /\ m = camera_groups h idx conv ext.
Proof.
  unfold Re.re_match. intros H.
  apply ReFacts.exec_sound in H.
  destruct H as (txt & rest & g' & -> & D & K). injection K as ->.
  apply name_pattern_denote in D.
  destruct D as (h & idx & conv & ext & P & T & -> & ->).
  exists h, idx, conv, ext, rest. auto.
Qed.

Lemma re_match_complete (h idx : string) (conv : option string)
    (ext tail : string) :
  camera_parts h idx conv ext ->
  tail = "" \/ tail = String Str.LF "" ->
  Re.re_match name_pattern (camera_name h idx conv ext ++ tail) <> None.
Proof.
  intros P T. unfold Re.re_match.
  apply ReFacts.exec_complete with (g' := camera_groups h idx conv ext).
  - apply name_pattern_denote. exists h, idx, conv, ext. auto.
  - discriminate.
Qed.

(** [int] reads every non-empty run of digits. *)
Lemma int_digits_ok (s : string) :
  all_digits s = true -> forall acc, exists n, int_digits acc s = Ok n.
Proof.
  induction s as [|c s IH]; simpl; intros D acc.
  - eauto.
  - apply andb_true_iff in D. destruct D as [Dc Ds]. rewrite Dc. auto.
Qed.

Lemma int_ok (lo hi : nat) (s : string) :
  digit_run (S lo) hi s -> exists n, int s = Ok n.
Proof.
  intros [[L _] D]. destruct s as [|c s]; [simpl in L; lia|].
  unfold int. now apply int_digits_ok.
Qed.

(** The head token of a name is what the name starts with. *)
Lemma camera_name_head (h h' idx idx' : string) (conv conv' : option string)
    (ext ext' tail tail' : string) :
  String.length h = String.length h' ->
  (camera_name h idx conv ext ++ tail)%string
  = (camera_name h' idx' conv' ext' ++ tail')%string ->
  h = h'.
Proof.
  unfold camera_name. rewrite !append_assoc. intros L E.
  now apply append_eq_length in E.
Qed.

Lemma head_length (h : string) :
  h = "DSC" \/ h = "MOV" -> String.length h = 3.
Proof. intros [->| ->]; reflexivity. Qed.

Section WithStat.

Variable os_stat : string -> stat_result.

(** A path whose name the pattern accepts is classified by its head
    token. *)
Lemma parse_file_camera (path h idx : string) (conv : option string)
    (ext tail : string) :
  camera_parts h idx conv ext ->
  tail = "" \/ tail = String Str.LF "" ->
  Str.basename path = (camera_name h idx conv ext ++ tail)%string ->
  exists i c,
    parse_file os_stat path
    = Ok [Regular {| media := Mediafile_init os_stat path;
                     class_of := class_of_head h;
                     _index := i; _convolution := c |}].
Proof.
  intros P T E. unfold parse_file.
  destruct (Re.re_match name_pattern (Str.basename path)) as [m|] eqn:M.
  - apply re_match_sound in M.
    destruct M as (h' & idx' & conv' & ext' & tail' & P' & T' & E' & ->).
    assert (h' = h) as ->.
    { rewrite E in E'. symmetry. apply camera_name_head in E'; [assumption|].
      destruct P as [Hh _], P' as [Hh' _].
      now rewrite (head_length _ Hh), (head_length _ Hh'). }
    destruct P' as (Hh & Hi & Hc & He).
    destruct (int_ok 3 4 idx' Hi) as [i Ei].
    assert (G : exists c,
      match Re.group (camera_groups h idx' conv' ext') "conv" with
      | Some (String _ _ as s) => int s
      | _ => Ok 0
      end = Ok c).
    { destruct conv' as [c'|]; simpl; [|eauto].
      destruct (int_ok 0 3 c' Hc) as [c Ec].
      destruct c' as [|x c']; eauto. }
    destruct G as [c Ec]. exists i, c.
    assert (Gh : Re.group (camera_groups h idx' conv' ext') "head" = Some h)
      by (destruct conv'; reflexivity).
    assert (Gi : Re.group (camera_groups h idx' conv' ext') "idx" = Some idx')
      by (destruct conv'; reflexivity).
    rewrite Gh, Gi, Ec. cbn [deref bind]. rewrite Ei. cbn [bind].
    destruct Hh as [->| ->]; reflexivity.
  - exfalso. rewrite E in M. now apply (re_match_complete h idx conv ext tail).
Qed.

(** Any other path is classified generic. *)
Lemma parse_file_other (path : string) :
  Re.re_match name_pattern (Str.basename path) = None ->
  parse_file os_stat path = Ok [Plain (Mediafile_init os_stat path)].
Proof. unfold parse_file. now intros ->. Qed.

End WithStat.

(** The grammar of the specification against names put together from
    well-formed parts. *)
Lemma spec_grammar_camera (h name : string) :
  spec_grammar h name
  <-> exists idx conv ext,
        digit_run 4 4 idx
        /\ match conv with Some c => digit_run 1 3 c | None => True end
        /\ (ext = "JPG" \/ ext = "mp4")
        /\ name = camera_name h idx conv ext.
Proof.
  split.
  - intros [idx ext Hi He | idx conv ext Hi Hc He].
    + exists idx, None, ext. auto.
    + exists idx, (Some conv), ext. split; [|split; [|split]]; auto.
  - intros (idx & [c|] & ext & Hi & Hc & He & ->).
    + now apply grammar_convolution.
    + now apply grammar_plain.
Qed.

Lemma accepted_camera (h name : string) :
  h = "DSC" \/ h = "MOV" ->
  accepted h name
  <-> exists idx conv ext tail,
        camera_parts h idx conv ext
        /\ (tail = "" \/ tail = String Str.LF "")
        /\ name = (camera_name h idx conv ext ++ tail)%string.
Proof.
  intros Hh. unfold accepted, camera_parts. split.
  - intros [G | (g & G & ->)]; apply spec_grammar_camera in G;
      destruct G as (idx & conv & ext & Hi & Hc & He & ->);
      [exists idx, conv, ext, "" | exists idx, conv, ext, (String Str.LF "")];
      rewrite ?append_nil_r; auto 10.
  - intros (idx & conv & ext & tail & (_ & Hi & Hc & He) & [->| ->] & ->).
    + left. rewrite append_nil_r. apply spec_grammar_camera. eauto 10.
    + right. exists (camera_name h idx conv ext). split; [|reflexivity].
      apply spec_grammar_camera. eauto 10.
Qed.

(** No name is accepted under both head tokens. *)
Lemma accepted_one_head (name : string) :
  accepted "DSC" name -> accepted "MOV" name -> False.
Proof.
  intros A B.
  apply accepted_camera in A; [|auto]. apply accepted_camera in B; [|auto].
  destruct A as (i & c & e & t & _ & _ & ->).
  destruct B as (i' & c' & e' & t' & _ & _ & E).
  apply camera_name_head in E; [discriminate E | reflexivity].
Qed.

End ClassifierFacts.

(** ** The classifier at the names the claims fail on *)

Lemma line_feed_name_outside_grammar (h : string) :
  h = "DSC" \/ h = "MOV" -> ~ spec_grammar h name_with_line_feed.
Proof.
  intros Hh G. apply ClassifierFacts.spec_grammar_camera in G.
  destruct G as (idx & conv & ext & [Li _] & Hc & He & E).
  apply (f_equal String.length) in E. unfold camera_name in E.
  rewrite !StrFacts.length_append in E.
  rewrite (ClassifierFacts.head_length h Hh) in E.
  assert (Le : String.length ext = 3) by (destruct He as [->| ->]; reflexivity).
  rewrite Le in E.
  destruct conv as [c|]; [destruct Hc as [Lc _]|]; simpl in E;
    rewrite ?StrFacts.length_append in E; simpl in E; lia.
Qed.

(** The head a match has read is in upper case already: upper-casing
    it, as [parse_files] does before it compares it with [DSC] and
    [MOV], changes nothing. *)
Lemma matched_head_is_upper_case (s : string) (m : Re.groups) (h : string) :
  Re.re_match name_pattern s = Some m ->
  Re.group m "head" = Some h ->
  Str.upper h = h.
Proof.
  intros M G. apply ClassifierFacts.re_match_sound in M.
  destruct M as (h' & idx & conv & ext & tail & (Hh & _) & _ & _ & ->).
  assert (E : Re.group (camera_groups h' idx conv ext) "head" = Some h')
    by (destruct conv; reflexivity).
  rewrite E in G. injection G as <-.
  destruct Hh as [->| ->]; reflexivity.
Qed.

(** C3.  The classifier on [DSC_0001.JPG] followed by a line feed: the
    name is not of the grammar
    [{DSC|MOV}_{4 digits}[_{1-3 digits}].{JPG|mp4}] under either head,
    and the record yielded for it is a picture, with the index 1 read
    from it, where a name outside the grammar is to give the generic
    record.  The pattern's [$] lets the line feed through. *)
Theorem line_feed_name_is_classified_a_picture :
  ~ spec_grammar "DSC" name_with_line_feed
  /\ ~ spec_grammar "MOV" name_with_line_feed
  /\ parse_file (still_stat noon) name_with_line_feed
     = Ok [Regular (PictureFile_init (still_stat noon)
                      name_with_line_feed 1 0)].
Proof.
  split; [apply line_feed_name_outside_grammar; auto|].
  split; [apply line_feed_name_outside_grammar; auto|].
  reflexivity.
Qed.

(** C7.  The classifier on [dsc_0001.JPG]: the name is of the grammar
    with the head token [dsc], which is [DSC] but for the case of its
    letters, and the record yielded for it is the generic one, where a
    match that ignores the case of the head is to give a picture.  The
    pattern is matched as it is written, so the upper-casing of the
    head that follows the match finds every head in upper case
    already. *)
Theorem lower_case_head_is_classified_generic :
  spec_grammar "dsc" (Str.basename name_in_lower_case)
  /\ same_ignoring_case "dsc" "DSC"
  /\ parse_file (still_stat noon) name_in_lower_case
     = Ok [Plain (Mediafile_init (still_stat noon) name_in_lower_case)]
  /\ Re.re_match name_pattern name_in_lower_case = None.
Proof.
  split.
  { apply (grammar_plain "dsc" "0001" "JPG"); [|auto].
    split; [simpl; lia | reflexivity]. }
  repeat split; reflexivity.
Qed.

Lemma filename_function_witness :
  let r1 := PictureFile_init (still_stat noon) "a/DSC_0001.JPG" 1 2 in
  let r2 := PictureFile_init (still_stat noon) "b/DSC_0007_5.JPG" 7 2 in
  regular_filename r1 = regular_filename r2
  /\ regular_filename (set_index 9 r1) = regular_filename r1.
Proof.
  intros r1 r2.
  apply (filename_function_of_head_time_convolution r1 r2 9);
    reflexivity.
Defined.

(** ** Order of time stamps *)

Module DatetimeFacts.

Lemma nat_compare_trans (x y z : nat) (c : comparison) :
  Nat.compare x y = c -> Nat.compare y z = c -> Nat.compare x z = c.
Proof.
  destruct (Nat.compare_spec x y), (Nat.compare_spec y z);
    intros <-; try discriminate; intros _;
    destruct (Nat.compare_spec x z); try reflexivity; lia.
Qed.

Lemma cmp_antisym (a b : datetime) :
  Datetime.cmp b a = CompOpp (Datetime.cmp a b).
Proof.
  unfold Datetime.cmp.
  apply list_compare_antisym;
    [apply Nat.compare_eq_iff | apply Nat.compare_antisym].
Qed.

Lemma cmp_trans (a b c : datetime) (r : comparison) :
  Datetime.cmp a b = r -> Datetime.cmp b c = r -> Datetime.cmp a c = r.
Proof.
  unfold Datetime.cmp.
  apply list_compare_trans;
    [apply Nat.compare_eq_iff | apply nat_compare_trans
    | apply Nat.compare_antisym].
Qed.

Lemma cmp_eq_fields (a b : datetime) :
  Datetime.cmp a b = Eq -> Datetime.fields a = Datetime.fields b.
Proof.
  unfold Datetime.cmp. apply list_compare_refl. apply Nat.compare_eq_iff.
Qed.

Lemma ltb_Lt (a b : datetime) :
  Datetime.ltb a b = true <-> Datetime.cmp a b = Lt.
Proof.
  unfold Datetime.ltb. destruct (Datetime.cmp a b); split;
    intros H; try reflexivity; discriminate H.
Qed.

Lemma ltb_trans (a b c : datetime) :
  Datetime.ltb a b = true -> Datetime.ltb b c = true ->
  Datetime.ltb a c = true.
Proof. rewrite !ltb_Lt. apply cmp_trans. Qed.

(** [a < b <= c] gives [a < c]. *)
Lemma ltb_leb_trans (a b c : datetime) :
  Datetime.ltb a b = true -> Datetime.ltb c b = false ->
  Datetime.ltb a c = true.
Proof.
  intros Hab Hcb. rewrite ltb_Lt in *.
  destruct (Datetime.cmp b c) eqn:E.
  - apply cmp_eq_fields in E. unfold Datetime.cmp in *. now rewrite <- E.
  - now apply cmp_trans with b.
  - exfalso. unfold Datetime.ltb in Hcb.
    rewrite (cmp_antisym b c), E in Hcb. discriminate Hcb.
Qed.

(** [a <= b < c] gives [a < c]. *)
Lemma leb_ltb_trans (a b c : datetime) :
  Datetime.ltb b a = false -> Datetime.ltb b c = true ->
  Datetime.ltb a c = true.
Proof.
  intros Hba Hbc. rewrite ltb_Lt in *.
  destruct (Datetime.cmp a b) eqn:E.
  - apply cmp_eq_fields in E. unfold Datetime.cmp in *. now rewrite E.
  - now apply cmp_trans with b.
  - exfalso. unfold Datetime.ltb in Hba.
    rewrite (cmp_antisym a b), E in Hba. discriminate Hba.
Qed.

Lemma leb_refl (a : datetime) : Datetime.leb a a = true.
Proof.
  unfold Datetime.leb, Datetime.ltb.
  assert (E : Datetime.cmp a a = Eq)
    by (apply list_compare_refl; [apply Nat.compare_eq_iff | reflexivity]).
  now rewrite E.
Qed.

End DatetimeFacts.

(** ** Trackers *)

Section TrackingFacts.

Variables A B : Type.
Variable candidate : A -> option B.
Variable beats : B -> B -> bool.

Hypothesis beats_trans :
  forall a b c, beats a b = true -> beats b c = true -> beats a c = true.
Hypothesis beats_weak :
  forall a b c, beats a b = true -> beats c b = false -> beats a c = true.

(** What the tracker holds after a run over [l]: nothing while no
    candidate has come, the first best candidate from then on. *)
Lemma track_invariant (l : list A) :
  match fold_left (track candidate beats) l None with
  | None => forall y, In y l -> candidate y = None
  | Some x => first_best candidate beats l x
  end.
Proof.
  induction l as [|a l IH] using rev_ind; [intros y []|].
  rewrite fold_left_app. cbn [fold_left]. unfold track at 1.
  destruct (candidate a) as [b|] eqn:Ca.
  - destruct (fold_left (track candidate beats) l None) as [x|];
      cbn [unset_or].
    + destruct IH as (before & a0 & after & -> & C0 & Hb & Ha).
      destruct (beats b x) eqn:Bx.
      * exists (before ++ a0 :: after), a, []. repeat split; auto.
        2: { intros y b' []. }
        intros y b' Iy Cy. apply in_app_or in Iy.
        destruct Iy as [Iy|[->|Iy]].
        -- apply beats_trans with x; eauto.
        -- congruence.
        -- apply beats_weak with x; eauto.
      * exists before, a0, (after ++ [a]). repeat split; auto.
        { now rewrite <- app_assoc. }
        intros y b' Iy Cy. apply in_app_or in Iy.
        destruct Iy as [Iy|[->|[]]]; [eauto | congruence].
    + exists l, a, []. repeat split; auto.
      * intros y b' Iy Cy. rewrite (IH y Iy) in Cy. discriminate Cy.
      * intros y b' [].
  - destruct (fold_left (track candidate beats) l None) as [x|].
    + destruct IH as (before & a0 & after & -> & C0 & Hb & Ha).
      exists before, a0, (after ++ [a]). repeat split; auto.
      { now rewrite <- app_assoc. }
      intros y b' Iy Cy. apply in_app_or in Iy.
      destruct Iy as [Iy|[->|[]]]; [eauto | congruence].
    + intros y Iy. apply in_app_or in Iy.
      destruct Iy as [Iy|[->|[]]]; auto.
Qed.

Lemma track_first_best (l : list A) :
  (exists a b, In a l /\ candidate a = Some b) ->
  exists x,
    fold_left (track candidate beats) l None = Some x
    /\ first_best candidate beats l x.
Proof.
  intros (a & b & Ia & Ca). pose proof (track_invariant l) as I.
  destruct (fold_left (track candidate beats) l None) as [x|]; [eauto|].
  rewrite (I a Ia) in Ca. discriminate Ca.
Qed.

Lemma track_none (l : list A) :
  (forall a, In a l -> candidate a = None) ->
  fold_left (track candidate beats) l None = None.
Proof.
  intros N. pose proof (track_invariant l) as I.
  destruct (fold_left (track candidate beats) l None) as [x|]; [|reflexivity].
  destruct I as (before & a & after & -> & Ca & _).
  rewrite N in Ca; [discriminate Ca | apply in_elt].
Qed.

End TrackingFacts.

(** ** The aggregate *)

Module AnalysisFacts.

Lemma perform_analysis_fold (gen : list file) :
  forall self, perform_analysis self gen = (fold_left analyze gen self, gen).
Proof.
  induction gen as [|f gen IH]; intros self; simpl; [reflexivity|].
  now rewrite IH.
Qed.

Lemma analysis_of_fold (files : list file) :
  analysis_of files = fold_left analyze files Analysis_init.
Proof. unfold analysis_of. now rewrite perform_analysis_fold. Qed.

(** Every field of the aggregate is a fold of its own. *)
Lemma fold_fields (files : list file) :
  forall self,
    let final := fold_left analyze files self in
    min_atime final
    = fold_left (track every (earlier last_access)) files (min_atime self)
    /\ max_atime final
       = fold_left (track every (later last_access)) files (max_atime self)
    /\ min_mtime final
       = fold_left (track every (earlier last_modification)) files
           (min_mtime self)
    /\ max_mtime final
       = fold_left (track every (later last_modification)) files
           (max_mtime self)
    /\ min_ctime final
       = fold_left (track every (earlier last_metadata_change)) files
           (min_ctime self)
    /\ max_ctime final
       = fold_left (track every (later last_metadata_change)) files
           (max_ctime self)
    /\ min_convolution final
       = fold_left (track classified more_convoluted) files
           (min_convolution self)
    /\ unusual_filenames final
       = unusual_filenames self ++ generic_records files
    /\ total final = total self + List.length files.
Proof.
  induction files as [|f files IH]; intros self; cbn zeta.
  - simpl. rewrite app_nil_r, Nat.add_0_r. repeat split.
  - cbn [fold_left]. specialize (IH (analyze self f)). cbn zeta in IH.
    destruct IH as (H1 & H2 & H3 & H4 & H5 & H6 & H7 & H8 & H9).
    rewrite H1, H2, H3, H4, H5, H6, H7, H8, H9.
    repeat split.
    + destruct f; reflexivity.
    + destruct f; simpl; rewrite <- ?app_assoc; reflexivity.
    + simpl. lia.
Qed.

Section Keys.

Variable key : file -> datetime.

Lemma earlier_trans (a b c : file) :
  earlier key a b = true -> earlier key b c = true -> earlier key a c = true.
Proof. unfold earlier, Datetime.gtb. apply DatetimeFacts.ltb_trans. Qed.

Lemma earlier_weak (a b c : file) :
  earlier key a b = true -> earlier key c b = false -> earlier key a c = true.
Proof. unfold earlier, Datetime.gtb. apply DatetimeFacts.ltb_leb_trans. Qed.

Lemma later_trans (a b c : file) :
  later key a b = true -> later key b c = true -> later key a c = true.
Proof.
  unfold later. intros H1 H2. now apply DatetimeFacts.ltb_trans with (key b).
Qed.

Lemma later_weak (a b c : file) :
  later key a b = true -> later key c b = false -> later key a c = true.
Proof.
  unfold later. intros H1 H2.
  now apply DatetimeFacts.leb_ltb_trans with (key b).
Qed.

Lemma earliest_first_least (files : list file) :
  files <> [] ->
  exists x,
    fold_left (track every (earlier key)) files None = Some x
    /\ first_least key files x.
Proof.
  intros N.
  destruct (track_first_best _ _ every (earlier key)
              earlier_trans earlier_weak files) as (x & R & F).
  { destruct files as [|f files]; [contradiction|].
    exists f, f. split; [now left | reflexivity]. }
  exists x. split; [exact R|].
  destruct F as (before & a & after & -> & C & Hb & Ha).
  injection C as ->. exists before, after. repeat split.
  - intros y Iy. apply (Hb y y Iy eq_refl).
  - intros y Iy. unfold Datetime.leb.
    pose proof (Ha y y Iy eq_refl) as H. unfold earlier, Datetime.gtb in H.
    now rewrite H.
Qed.

Lemma latest_first_greatest (files : list file) :
  files <> [] ->
  exists x,
    fold_left (track every (later key)) files None = Some x
    /\ first_greatest key files x.
Proof.
  intros N.
  destruct (track_first_best _ _ every (later key)
              later_trans later_weak files) as (x & R & F).
  { destruct files as [|f files]; [contradiction|].
    exists f, f. split; [now left | reflexivity]. }
  exists x. split; [exact R|].
  destruct F as (before & a & after & -> & C & Hb & Ha).
  injection C as ->. exists before, after. repeat split.
  - intros y Iy. apply (Hb y y Iy eq_refl).
  - intros y Iy. unfold Datetime.leb.
    pose proof (Ha y y Iy eq_refl) as H. unfold later in H.
    now rewrite H.
Qed.

End Keys.

Lemma more_convoluted_trans (a b c : RegularFile) :
  more_convoluted a b = true -> more_convoluted b c = true ->
  more_convoluted a c = true.
Proof. unfold more_convoluted. rewrite !Nat.ltb_lt. lia. Qed.

Lemma more_convoluted_weak (a b c : RegularFile) :
  more_convoluted a b = true -> more_convoluted c b = false ->
  more_convoluted a c = true.
Proof.
  unfold more_convoluted. rewrite !Nat.ltb_lt, Nat.ltb_ge. lia.
Qed.

Lemma classified_Some (f : file) (r : RegularFile) :
  classified f = Some r <-> f = Regular r.
Proof.
  destruct f as [m|r']; simpl; split; intros H; try discriminate H;
    congruence.
Qed.

Lemma most_convoluted_first (files : list file) :
  (exists r, In (Regular r) files) ->
  exists x,
    fold_left (track classified more_convoluted) files None = Some x
    /\ first_most_convoluted files x.
Proof.
  intros (r & Ir).
  destruct (track_first_best _ _ classified more_convoluted
              more_convoluted_trans more_convoluted_weak files)
    as (x & R & F).
  { exists (Regular r), r. auto. }
  exists x. split; [exact R|].
  destruct F as (before & a & after & -> & C & Hb & Ha).
  apply classified_Some in C. subst a. exists before, after. repeat split.
  - intros r' I'. apply Nat.ltb_lt. apply (Hb (Regular r') r' I' eq_refl).
  - intros r' I'. apply Nat.ltb_ge. apply (Ha (Regular r') r' I' eq_refl).
Qed.

Lemma no_classified_none (files : list file) :
  (forall r, ~ In (Regular r) files) ->
  fold_left (track classified more_convoluted) files None = None.
Proof.
  intros N. apply track_none.
  - exact more_convoluted_trans.
  - exact more_convoluted_weak.
  - intros [m|r] I; [reflexivity | destruct (N r I)].
Qed.

(** The record [min_convolution] holds after a run with a classified
    record. *)
Lemma tracked_convolution (files : list file) :
  (exists r, In (Regular r) files) ->
  exists x,
    min_convolution (analysis_of files) = Some x
    /\ first_most_convoluted files x
    /\ forall r, In (Regular r) files -> _convolution r <= _convolution x.
Proof.
  intros E. destruct (most_convoluted_first files E) as (x & R & F).
  exists x. rewrite analysis_of_fold.
  destruct (fold_fields files Analysis_init)
    as (_ & _ & _ & _ & _ & _ & H & _).
  split; [now rewrite H|]. split; [exact F|].
  destruct F as (before & after & -> & Hb & Ha).
  intros r I. apply in_app_or in I. destruct I as [I|[I|I]].
  - apply Nat.lt_le_incl. now apply Hb.
  - injection I as <-. reflexivity.
  - now apply Ha.
Qed.

(** The records the six time trackers hold after a run over at least
    one record. *)
Lemma tracked_times (files : list file) :
  files <> [] ->
  exists a_min a_max m_min m_max c_min c_max,
    (min_atime (analysis_of files) = Some a_min
     /\ first_least last_access files a_min)
    /\ (max_atime (analysis_of files) = Some a_max
        /\ first_greatest last_access files a_max)
    /\ (min_mtime (analysis_of files) = Some m_min
        /\ first_least last_modification files m_min)
    /\ (max_mtime (analysis_of files) = Some m_max
        /\ first_greatest last_modification files m_max)
    /\ (min_ctime (analysis_of files) = Some c_min
        /\ first_least last_metadata_change files c_min)
    /\ (max_ctime (analysis_of files) = Some c_max
        /\ first_greatest last_metadata_change files c_max).
Proof.
  intros N. rewrite analysis_of_fold.
  destruct (fold_fields files Analysis_init)
    as (H1 & H2 & H3 & H4 & H5 & H6 & _).
  rewrite H1, H2, H3, H4, H5, H6. cbn [Analysis_init min_atime max_atime
    min_mtime max_mtime min_ctime max_ctime].
  destruct (earliest_first_least last_access files N) as (a_min & ?).
  destruct (latest_first_greatest last_access files N) as (a_max & ?).
  destruct (earliest_first_least last_modification files N) as (m_min & ?).
  destruct (latest_first_greatest last_modification files N) as (m_max & ?).
  destruct (earliest_first_least last_metadata_change files N)
    as (c_min & ?).
  destruct (latest_first_greatest last_metadata_change files N)
    as (c_max & ?).
  exists a_min, a_max, m_min, m_max, c_min, c_max. auto 10.
Qed.

End AnalysisFacts.

Section Aggregation.

Import AnalysisFacts.

Variable files : list file.

(** C5.  After a run over records of which at least one is classified,
    [min_convolution] holds a classified record of the run whose
    convolution is at least that of every classified record of the run
    (the greatest, whatever the name says), and of the records with that
    convolution it holds the first: every classified record before it
    has a smaller one. *)
Theorem min_convolution_holds_first_greatest :
  (exists r, In (Regular r) files) ->
  exists x,
    min_convolution (analysis_of files) = Some x
    /\ first_most_convoluted files x
    /\ forall r, In (Regular r) files -> _convolution r <= _convolution x.
Proof. exact (tracked_convolution files). Qed.

(** C6.  After a run over at least one record, each of the six time
    trackers holds a record of the run.  The three [min] trackers hold
    the first record with the least access, modification and
    metadata-change time: the records before it have a greater one, the
    records after it one not less.  The three [max] trackers hold the
    first record with the greatest such time. *)
Theorem time_trackers_hold_first_extremes :
  files <> [] ->
  exists a_min a_max m_min m_max c_min c_max,
    (min_atime (analysis_of files) = Some a_min
     /\ first_least last_access files a_min)
    /\ (max_atime (analysis_of files) = Some a_max
        /\ first_greatest last_access files a_max)
    /\ (min_mtime (analysis_of files) = Some m_min
        /\ first_least last_modification files m_min)
    /\ (max_mtime (analysis_of files) = Some m_max
        /\ first_greatest last_modification files m_max)
    /\ (min_ctime (analysis_of files) = Some c_min
        /\ first_least last_metadata_change files c_min)
    /\ (max_ctime (analysis_of files) = Some c_max
        /\ first_greatest last_metadata_change files c_max).
Proof. exact (tracked_times files). Qed.

Lemma generic_records_filter (l : list file) :
  map Plain (generic_records l) = filter (fun f => negb (is_regular f)) l.
Proof.
  induction l as [|[m|r] l IH]; simpl; congruence.
Qed.

(** C9.  After a run over any records, [total] is their number and
    [unusual_filenames] holds the generic records of the run and no
    other, in the order of the run. *)
Theorem total_and_unusual_filenames :
  total (analysis_of files) = List.length files
  /\ map Plain (unusual_filenames (analysis_of files))
     = filter (fun f => negb (is_regular f)) files.
Proof.
  rewrite analysis_of_fold.
  destruct (fold_fields files Analysis_init) as (_ & _ & _ & _ & _ & _ & _ & U & T).
  rewrite U, T. split; [reflexivity|]. apply generic_records_filter.
Qed.

Lemma print_time_table_empty :
  print_time_table (analysis_of []) = Raise AttributeError.
Proof. reflexivity. Qed.

Lemma print_time_table_ok :
  files <> [] -> exists table, print_time_table (analysis_of files) = Ok table.
Proof.
  intros N. destruct (tracked_times files N)
    as (a & b & c & d & e & f & (A & _) & (B & _) & (C & _) & (D & _)
        & (E & _) & (F & _)).
  unfold print_time_table. rewrite A, B, C, D, E, F. cbn [deref bind].
  eexists. reflexivity.
Qed.

Lemma print_time_table_raises (self : Analysis) (e : exn) :
  print_time_table self = Raise e -> e = AttributeError.
Proof.
  unfold print_time_table.
  destruct (min_atime self), (max_atime self), (min_mtime self),
    (max_mtime self), (min_ctime self), (max_ctime self);
    cbn [deref bind]; intros H; try discriminate H; congruence.
Qed.

Lemma analyze_mode_unfold :
  analyze_mode files
  = (table <- print_time_table (analysis_of files) ;;
     most <- deref (min_convolution (analysis_of files)) ;;
     Ok (files,
         ["Analyzing media files";
          ("Number of files: " ++ Str.dec (List.length files))%string]
         ++ table
         ++ [("Minimum convolutions detected: "
              ++ Str.dec (_convolution most)
              ++ " (" ++ regular_filename most ++ ")")%string;
             ("Unusual file names ("
              ++ Str.dec (List.length
                            (unusual_filenames (analysis_of files)))
              ++ "):")%string;
             Str.join_with ", "
               (map _filename (unusual_filenames (analysis_of files)))])).
Proof.
  unfold analyze_mode, analysis_of.
  rewrite perform_analysis_fold. reflexivity.
Qed.

(** C10.  The report of the analyze mode needs a classified record:
    after a run without one (so after a run over no record at all)
    [min_convolution] is [None] and the report stops on reading an
    attribute of it or, when there was no record, of an unset time
    tracker in the time table; after a run with a classified record the
    report is printed. *)
Theorem report_needs_a_classified_record :
  ((forall r, ~ In (Regular r) files) ->
   min_convolution (analysis_of files) = None
   /\ analyze_mode files = Raise AttributeError)
  /\ (files = [] ->
      print_time_table (analysis_of files) = Raise AttributeError)
  /\ ((exists r, In (Regular r) files) ->
      exists lines, analyze_mode files = Ok (files, lines)).
Proof.
  split; [|split].
  - intros N.
    assert (M : min_convolution (analysis_of files) = None).
    { rewrite analysis_of_fold.
      destruct (fold_fields files Analysis_init)
        as (_ & _ & _ & _ & _ & _ & H & _).
      rewrite H. now apply no_classified_none. }
    split; [exact M|]. rewrite analyze_mode_unfold.
    destruct (print_time_table (analysis_of files)) as [table|e] eqn:P.
    + cbn [bind]. rewrite M. reflexivity.
    + apply print_time_table_raises in P. now subst e.
  - intros E. clear - E. subst files. reflexivity.
  - intros E. rewrite analyze_mode_unfold.
    destruct print_time_table_ok as [table ->].
    { destruct E as (r & I). intros ->. destruct I. }
    destruct (tracked_convolution files E) as (x & -> & _).
    cbn [bind deref]. eexists. reflexivity.
Qed.

End Aggregation.

(** ** The planner *)

Module PlannerFacts.

Lemma set_convolution_twice (a b : nat) (r : RegularFile) :
  set_convolution a (set_convolution b r) = set_convolution a r.
Proof. reflexivity. Qed.

Lemma set_convolution_same (r : RegularFile) :
  set_convolution (_convolution r) r = r.
Proof. now destruct r. Qed.

Lemma regular_filename_set_convolution (c : nat) (r : RegularFile) :
  regular_filename (set_convolution c r)
  = name_of (class_of r) (st_mtime (_stat (media r))) c.
Proof. reflexivity. Qed.

(** What the loop [while file.filename in new_filenames] leaves: the
    record with the least convolution, from the one it starts with, whose
    name is not taken. *)
Lemma bump_result (names : list string) (fuel : nat) :
  forall r r',
    bump fuel names r = Some r' ->
    r' = set_convolution (_convolution r') r
    /\ _convolution r <= _convolution r'
    /\ ~ In (regular_filename r') names
    /\ forall c, _convolution r <= c < _convolution r' ->
                 In (regular_filename (set_convolution c r)) names.
Proof.
  induction fuel as [|fuel IH]; intros r r' H; simpl in H; [discriminate H|].
  destruct (Str.mem (regular_filename r) names) eqn:M.
  - apply IH in H. cbn [set_convolution _convolution] in H.
    destruct H as (E & L & N & Below).
    rewrite set_convolution_twice in E.
    repeat split; [exact E | lia | exact N |].
    intros c Hc. destruct (Nat.eq_dec c (_convolution r)) as [->|Ne].
    + rewrite set_convolution_same. now apply StrFacts.mem_In.
    + rewrite <- (set_convolution_twice c (_convolution r + 1)).
      apply Below. lia.
  - injection H as <-. rewrite set_convolution_same.
    repeat split; [lia | now apply StrFacts.mem_not_In | intros c Hc; lia].
Qed.

Lemma bump_out_of_fuel (names : list string) (fuel : nat) :
  forall r,
    bump fuel names r = None ->
    forall i, i < fuel ->
      In (regular_filename (set_convolution (_convolution r + i) r)) names.
Proof.
  induction fuel as [|fuel IH]; intros r H i Hi; [lia|]. simpl in H.
  destruct (Str.mem (regular_filename r) names) eqn:M; [|discriminate H].
  destruct i as [|i].
  - rewrite Nat.add_0_r, set_convolution_same. now apply StrFacts.mem_In.
  - specialize (IH _ H i). cbn [set_convolution _convolution] in IH.
    rewrite set_convolution_twice in IH.
    replace (_convolution r + S i) with (_convolution r + 1 + i) by lia.
    apply IH. lia.
Qed.

(** The loop ends: among more names than are taken, one is free. *)
Lemma bump_enough_fuel (names : list string) (fuel : nat) (r : RegularFile) :
  List.length names < fuel -> exists r', bump fuel names r = Some r'.
Proof.
  intros L. destruct (bump fuel names r) as [r'|] eqn:B; [eauto|exfalso].
  pose proof (bump_out_of_fuel names fuel r B) as All.
  set (name := fun i =>
         regular_filename (set_convolution (_convolution r + i) r)).
  assert (ND : NoDup (map name (seq 0 fuel))).
  { apply Injective_map_NoDup; [|apply seq_NoDup].
    intros i j E. unfold name in E.
    rewrite !regular_filename_set_convolution in E.
    apply name_of_inj in E. lia. }
  assert (Inc : incl (map name (seq 0 fuel)) names).
  { intros s Hs. apply in_map_iff in Hs. destruct Hs as (i & <- & Hi).
    apply in_seq in Hi. apply All. lia. }
  pose proof (NoDup_incl_length ND Inc) as Len.
  rewrite length_map, length_seq in Len. lia.
Qed.

(** The result does not depend on the fuel that was enough. *)
Lemma bump_any_fuel (names : list string) (fuel : nat) :
  forall fuel' r a b,
    bump fuel names r = Some a -> bump fuel' names r = Some b -> a = b.
Proof.
  induction fuel as [|fuel IH]; intros [|fuel'] r a b Ha Hb;
    simpl in Ha, Hb; try discriminate.
  destruct (Str.mem (regular_filename r) names).
  - eapply IH; eassumption.
  - congruence.
Qed.

Lemma same_source_refl (f : file) : same_source f f.
Proof. destruct f; simpl; auto. Qed.

Lemma same_source_mtime (f g : file) :
  same_source f g -> last_modification f = last_modification g.
Proof.
  destruct f as [m|r], g as [m'|r']; simpl; try contradiction.
  - now intros ->.
  - unfold last_modification. simpl. now intros [-> _].
Qed.

Lemma same_source_list_refl (l : list file) : Forall2 same_source l l.
Proof. induction l; constructor; auto using same_source_refl. Qed.

(** *** The sort *)

Lemma insert_same_source (f f' : file) (l l' : list file) :
  same_source f f' -> Forall2 same_source l l' ->
  Forall2 same_source (insert_by_mtime f l) (insert_by_mtime f' l').
Proof.
  intros Sf Sl. induction Sl as [|g g' l l' Sg Sl IH]; simpl.
  - repeat constructor. exact Sf.
  - rewrite <- (same_source_mtime _ _ Sf), <- (same_source_mtime _ _ Sg).
    destruct (Datetime.ltb (last_modification g) (last_modification f));
      repeat constructor; auto.
Qed.

Lemma sorted_same_source (l l' : list file) :
  Forall2 same_source l l' -> Forall2 same_source (sorted l) (sorted l').
Proof.
  induction 1; simpl; [constructor | now apply insert_same_source].
Qed.

Lemma ltb_asym (a b : datetime) :
  Datetime.ltb a b = true -> Datetime.ltb b a = false.
Proof.
  unfold Datetime.ltb. rewrite (DatetimeFacts.cmp_antisym a b).
  destruct (Datetime.cmp a b); simpl; congruence.
Qed.

Lemma insert_ascending (f : file) (l : list file) :
  ascending l -> ascending (insert_by_mtime f l).
Proof.
  induction l as [|g l IH]; simpl; [auto|]. intros [Hg Hl].
  destruct (Datetime.ltb (last_modification g) (last_modification f)) eqn:E.
  - specialize (IH Hl). cbn [ascending]. split; [|exact IH].
    destruct l as [|h l]; simpl.
    + unfold Datetime.leb. now rewrite (ltb_asym _ _ E).
    + destruct (Datetime.ltb (last_modification h) (last_modification f));
        [exact Hg|].
      unfold Datetime.leb. now rewrite (ltb_asym _ _ E).
  - cbn [ascending]. repeat split; auto.
    unfold Datetime.leb. now rewrite E.
Qed.

Lemma sorted_is_ascending (l : list file) : ascending (sorted l).
Proof.
  induction l as [|f l IH]; simpl; [exact I | now apply insert_ascending].
Qed.

(** Sorting leaves a list that is in order as it is. *)
Lemma sorted_of_ascending (l : list file) : ascending l -> sorted l = l.
Proof.
  induction l as [|f l IH]; [reflexivity|]. intros [Hf Hl].
  cbn [sorted]. rewrite (IH Hl). destruct l as [|g l]; [reflexivity|].
  simpl. unfold Datetime.leb in Hf.
  now destruct (Datetime.ltb (last_modification g) (last_modification f)).
Qed.

Lemma ascending_same_source (l l' : list file) :
  Forall2 same_source l l' -> ascending l -> ascending l'.
Proof.
  induction 1 as [|f f' l l' Sf Sl IH]; [auto|]. intros [Hf Hl].
  split; [|now apply IH].
  destruct Sl as [|g g' l l' Sg Sl]; [exact I|].
  now rewrite <- (same_source_mtime _ _ Sf), <- (same_source_mtime _ _ Sg).
Qed.

Section Loop.

Variables fuel fuel' : nat.
Variable out_path : string.

(** One turn of the loop reads of a record only what [same_source]
    keeps, and gives the same state whatever fuel was enough. *)
Lemma copy_one_same_source (st a b : plan) (f f' : file) :
  same_source f f' ->
  copy_one fuel out_path st f = Some a ->
  copy_one fuel' out_path st f' = Some b ->
  a = b.
Proof.
  destruct f as [m|r], f' as [m'|r']; simpl; try contradiction.
  - intros -> Ha Hb. congruence.
  - intros [Em Ec]. rewrite <- Ec.
    assert (E : forall p, set_convolution 0 (set_index p r')
                          = set_convolution 0 (set_index p r)).
    { intros p. unfold set_convolution, set_index. simpl.
      now rewrite Em, Ec. }
    destruct (class_of r); rewrite E; intros Ha Hb;
      match type of Ha with
      | match bump _ ?n ?x with _ => _ end = _ =>
          destruct (bump fuel n x) as [ra|] eqn:Ba; [|discriminate Ha];
          destruct (bump fuel' n x) as [rb|] eqn:Bb; [|discriminate Hb];
          rewrite (bump_any_fuel _ _ _ _ _ _ Ba Bb) in Ha
      end; congruence.
Qed.

Lemma copy_loop_same_source (files files' : list file) :
  Forall2 same_source files files' ->
  forall st a b,
    copy_loop fuel out_path st files = Some a ->
    copy_loop fuel' out_path st files' = Some b ->
    a = b.
Proof.
  induction 1 as [|f f' l l' Sf Sl IH]; intros st a b Ha Hb; simpl in Ha, Hb.
  - congruence.
  - destruct (copy_one fuel out_path st f) as [sa|] eqn:Ca;
      [|discriminate Ha].
    destruct (copy_one fuel' out_path st f') as [sb|] eqn:Cb;
      [|discriminate Hb].
    rewrite (copy_one_same_source _ _ _ _ _ Sf Ca Cb) in Ha.
    eapply IH; eassumption.
Qed.

(** One turn: it goes through when the fuel is more than the names
    taken, and records one record and one name. *)
Lemma copy_one_step (st : plan) (f : file) :
  List.length (new_filenames st) < fuel ->
  exists g,
    same_source f g
    /\ copy_one fuel out_path st f
       = Some (emit out_path st g
                 (pics st + match f with
                            | Regular r =>
                                match class_of r with
                                | PictureFile => 1 | VideoFile => 0 end
                            | Plain _ => 0 end)
                 (vids st + match f with
                            | Regular r =>
                                match class_of r with
                                | PictureFile => 0 | VideoFile => 1 end
                            | Plain _ => 0 end)
                 (other st + match f with
                             | Regular _ => 0 | Plain _ => 1 end))
    /\ match g with
       | Regular r' => ~ In (regular_filename r') (new_filenames st)
       | Plain _ => g = f
       end.
Proof.
  intros L. destruct f as [m|r]; simpl.
  - exists (Plain m). rewrite !Nat.add_0_r. simpl. auto.
  - destruct (class_of r) eqn:C.
    + destruct (bump_enough_fuel (new_filenames st) fuel
                  (set_convolution 0 (set_index (pics st + 1) r)) L)
        as [r' B].
      rewrite B. rewrite !Nat.add_0_r. exists (Regular r').
      apply bump_result in B. destruct B as (E & _ & N & _).
      repeat split; [rewrite E; reflexivity | rewrite E; simpl; auto | exact N].
    + destruct (bump_enough_fuel (new_filenames st) fuel
                  (set_convolution 0 (set_index (vids st + 1) r)) L)
        as [r' B].
      rewrite B. rewrite !Nat.add_0_r. exists (Regular r').
      apply bump_result in B. destruct B as (E & _ & N & _).
      repeat split; [rewrite E; reflexivity | rewrite E; simpl; auto | exact N].
Qed.

(** The whole loop: with fuel for every name it goes through, and
    leaves the records in their order, one name for each. *)
Lemma copy_loop_total (files : list file) :
  forall st,
    List.length (new_filenames st) + List.length files <= fuel ->
    exists st' gs,
      copy_loop fuel out_path st files = Some st'
      /\ Forall2 same_source files gs
      /\ handled st' = handled st ++ gs
      /\ new_filenames st' = new_filenames st ++ map filename gs
      /\ copied st'
         = copied st
           ++ map (fun g => (path g, Str.join out_path (filename g))) gs.
Proof.
  induction files as [|f files IH]; intros st L.
  - exists st, []. simpl. rewrite !app_nil_r. repeat split. constructor.
  - simpl in L. destruct (copy_one_step st f) as (g & Sg & C & _); [lia|].
    cbn [copy_loop]. rewrite C.
    match type of C with
    | _ = Some ?s =>
        destruct (IH s) as (st' & gs & R & S & H & N & Cp);
          [simpl; rewrite length_app; simpl; lia|]
    end.
    exists st', (g :: gs). split; [exact R|]. split; [now constructor|].
    rewrite H, N, Cp. simpl. rewrite <- !app_assoc. auto.
Qed.

End Loop.

End PlannerFacts.

Section Planning.

Import PlannerFacts.

Variable out_path : string.

Lemma insert_length (f : file) (l : list file) :
  List.length (insert_by_mtime f l) = S (List.length l).
Proof.
  induction l as [|g l IH]; simpl; [reflexivity|].
  destruct (Datetime.ltb _ _); simpl; congruence.
Qed.

Lemma sorted_length (l : list file) : List.length (sorted l) = List.length l.
Proof.
  induction l as [|f l IH]; simpl; [reflexivity|].
  now rewrite insert_length, IH.
Qed.

Lemma out_mode_copy_loop (fuel : nat) (files : list file) (st : plan) :
  copy_loop fuel out_path plan_init (sorted files) = Some st ->
  exists st',
    out_mode fuel out_path files = Some st'
    /\ pics st' = pics st /\ vids st' = vids st /\ other st' = other st
    /\ new_filenames st' = new_filenames st
    /\ copied st' = copied st
    /\ handled st' = handled st.
Proof.
  intros H. unfold out_mode. rewrite H. eexists. repeat split.
Qed.

(** C8.  The assignment is determined by the sorted input: two runs,
    each from the empty set of names, over lists that agree record by
    record on all but the [index] and [convolution] the planner assigns,
    give the same state, so the same copies from source to destination,
    whatever fuel their loops had beyond the number of records; and a
    run over the records as a first run has left them gives that state
    again. *)
Theorem planner_assignment_deterministic
    (fuel fuel' : nat) (files files' : list file) :
  Forall2 same_source files files' ->
  List.length files <= fuel ->
  List.length files <= fuel' ->
  exists st,
    out_mode fuel out_path files = Some st
    /\ out_mode fuel' out_path files' = Some st
    /\ out_mode fuel' out_path (handled st) = Some st.
Proof.
  intros S L L'.
  pose proof (sorted_same_source _ _ S) as SS.
  destruct (copy_loop_total fuel out_path (sorted files) plan_init)
    as (st & gs & R & Sg & H & N & C).
  { simpl. rewrite sorted_length. exact L. }
  destruct (copy_loop_total fuel' out_path (sorted files') plan_init)
    as (st' & gs' & R' & _).
  { simpl. rewrite sorted_length, <- (Forall2_length S). exact L'. }
  pose proof (copy_loop_same_source _ _ out_path _ _ SS _ _ _ R R') as <-.
  simpl in H. subst gs.
  assert (A : sorted (handled st) = handled st).
  { apply sorted_of_ascending.
    apply (ascending_same_source _ _ Sg), sorted_is_ascending. }
  destruct (copy_loop_total fuel' out_path (handled st) plan_init)
    as (st'' & gs'' & R'' & _).
  { simpl. rewrite <- (Forall2_length Sg), sorted_length. exact L'. }
  pose proof (copy_loop_same_source _ _ out_path _ _ Sg _ _ _ R R'') as <-.
  unfold out_mode at 1 2. rewrite R, R'.
  eexists. split; [reflexivity|]. split; [reflexivity|].
  cbn [handled]. unfold out_mode. now rewrite A, R''.
Qed.

(** Names of one record with the convolutions below [k]. *)
Lemma names_below (c : regular_class) (d : datetime) (k : nat) (s : string) :
  In s (map (name_of c d) (seq 0 k)) <-> exists j, j < k /\ s = name_of c d j.
Proof.
  rewrite in_map_iff. split.
  - intros (j & <- & I). apply in_seq in I. exists j. split; [lia | reflexivity].
  - intros (j & L & ->). exists j. split; [reflexivity|]. apply in_seq. lia.
Qed.

(** When the names taken are those of the convolutions below [k] of a
    record, the loop leaves the record with convolution [k]. *)
Lemma bump_after_run (fuel k : nat) (r : RegularFile) :
  k < fuel ->
  bump fuel
    (map (name_of (class_of r) (st_mtime (_stat (media r)))) (seq 0 k))
    (set_convolution 0 r)
  = Some (set_convolution k r).
Proof.
  intros L.
  set (names := map _ _).
  destruct (bump_enough_fuel names fuel (set_convolution 0 r)) as [r' B].
  { unfold names. now rewrite length_map, length_seq. }
  rewrite B. f_equal. apply bump_result in B.
  destruct B as (E & _ & N & Below). rewrite set_convolution_twice in E.
  rewrite E. f_equal.
  destruct (Nat.lt_trichotomy (_convolution r') k) as [Lt|[Eq|Gt]];
    [exfalso | exact Eq | exfalso].
  - apply N. rewrite E, regular_filename_set_convolution.
    apply names_below. eauto.
  - specialize (Below k). cbn [_convolution set_convolution] in Below.
    rewrite set_convolution_twice, regular_filename_set_convolution in Below.
    apply names_below in Below; [|lia].
    destruct Below as (j & Lj & Ej). apply name_of_inj in Ej. lia.
Qed.

Lemma name_of_second (c : regular_class) (d d' : datetime) :
  Datetime.to_second d = Datetime.to_second d' ->
  name_of c d = name_of c d'.
Proof.
  intros E. unfold name_of, regular_filename. simpl.
  change (stamp d) with (stamp (Datetime.to_second d)).
  change (stamp d') with (stamp (Datetime.to_second d')).
  now rewrite E.
Qed.

Lemma bump_after_run_to_second (fuel k : nat) (r : RegularFile)
    (c : regular_class) (d : datetime) :
  k < fuel ->
  class_of r = c ->
  Datetime.to_second (st_mtime (_stat (media r))) = Datetime.to_second d ->
  bump fuel (map (name_of c d) (seq 0 k)) (set_convolution 0 r)
  = Some (set_convolution k r).
Proof.
  intros L <- T. rewrite <- (name_of_second _ _ _ T).
  now apply bump_after_run.
Qed.

Lemma pictures_numbered_from (fuel : nat) (d : datetime) (files : list file) :
  Forall (fun f => is_picture f
                   /\ Datetime.to_second (last_modification f)
                      = Datetime.to_second d) files ->
  forall st k,
    new_filenames st = map (name_of PictureFile d) (seq 0 k) ->
    k + List.length files <= fuel ->
    exists st' gs,
      copy_loop fuel out_path st files = Some st'
      /\ handled st' = handled st ++ gs
      /\ Forall2 same_source files gs
      /\ map convolution_of gs = seq k (List.length files)
      /\ new_filenames st'
         = map (name_of PictureFile d) (seq 0 (k + List.length files)).
Proof.
  induction 1 as [|f files [(r & -> & C) T] _ IH]; intros st k N L.
  - exists st, []. simpl. rewrite app_nil_r, Nat.add_0_r.
    repeat split; auto.
  - simpl in L. cbn [copy_loop copy_one]. rewrite C, N.
    unfold last_modification in T. simpl in T.
    rewrite (bump_after_run_to_second fuel k (set_index (pics st + 1) r)
               PictureFile d) by (auto; lia).
    match goal with
    | |- context [copy_loop _ _ ?s files] =>
        destruct (IH s (S k)) as (st' & gs & R & H & S & Cv & Nm)
    end.
    { cbn [emit new_filenames filename]. rewrite N.
      rewrite seq_S, map_app. simpl. f_equal. f_equal.
      rewrite regular_filename_name_of. simpl. rewrite C.
      now rewrite (name_of_second _ _ _ T). }
    { lia. }
    exists st', (Regular (set_convolution k (set_index (pics st + 1) r)) :: gs).
    rewrite R. split; [reflexivity|]. split.
    { rewrite H. cbn [emit handled]. now rewrite <- app_assoc. }
    split; [constructor; [simpl; auto | exact S]|].
    split; [simpl; now rewrite Cv|].
    rewrite Nm. cbn [List.length]. f_equal. f_equal. lia.
Qed.

(** C2.  Given in sorted order [N] pictures and nothing else, all with
    one modification time to the second, the planner goes through and
    leaves them in their order with the convolutions [0], [1], ...,
    [N-1]; the names given are those of that time with these
    convolutions, no two of them equal. *)
Theorem same_second_pictures_numbered
    (fuel : nat) (d : datetime) (files : list file) :
  Forall (fun f => is_picture f
                   /\ Datetime.to_second (last_modification f)
                      = Datetime.to_second d) files ->
  ascending files ->
  List.length files <= fuel ->
  exists st,
    out_mode fuel out_path files = Some st
    /\ Forall2 same_source files (handled st)
    /\ map convolution_of (handled st) = seq 0 (List.length files)
    /\ new_filenames st = map filename (handled st)
    /\ new_filenames st
       = map (name_of PictureFile d) (seq 0 (List.length files))
    /\ NoDup (new_filenames st).
Proof.
  intros P A L.
  destruct (pictures_numbered_from fuel d files P plan_init 0)
    as (st & gs & R & H & S & Cv & Nm); [reflexivity | exact L |].
  simpl in H, Nm. subst gs.
  destruct (copy_loop_total fuel out_path files plan_init)
    as (st1 & gs & R1 & _ & H1 & N1 & _); [exact L|].
  rewrite R in R1. injection R1 as <-. simpl in H1, N1. subst gs.
  rewrite <- (sorted_of_ascending files A) in R.
  destruct (out_mode_copy_loop _ _ _ R)
    as (st' & O & _ & _ & _ & En & _ & Eh).
  exists st'. rewrite En, Eh. repeat split; auto.
  rewrite Nm. apply Injective_map_NoDup; [|apply seq_NoDup].
  intros i j. apply name_of_inj.
Qed.

(** Names given to classified records are new: a run over classified
    records only gives no name twice. *)
Lemma classified_names_unique (fuel : nat) (files : list file) :
  Forall (fun f => is_regular f = true) files ->
  forall st,
    NoDup (new_filenames st) ->
    List.length (new_filenames st) + List.length files <= fuel ->
    exists st',
      copy_loop fuel out_path st files = Some st'
      /\ NoDup (new_filenames st').
Proof.
  induction 1 as [|f files Rf _ IH]; intros st ND L.
  - exists st. auto.
  - simpl in L. destruct (copy_one_step fuel out_path st f) as (g & S & C & F);
      [lia|].
    cbn [copy_loop]. rewrite C.
    match goal with
    | |- context [copy_loop _ _ ?s files] => apply (IH s)
    end.
    + cbn [emit new_filenames].
      destruct f as [m|r]; [discriminate Rf|].
      destruct g as [m'|r']; [contradiction|]. simpl.
      apply NoDup_app; auto.
      * repeat constructor. intros [].
      * intros s I [<-|[]]. now apply F.
    + cbn [emit new_filenames]. rewrite length_app. simpl. lia.
Qed.

End Planning.

(** C1, on the directory of [colliding_listing].  The picture is given
    its generated name; the generic file that follows it in
    modification time bears that very name and is given it unchanged,
    with no test against the names taken: the name is assigned twice,
    and both files are copied to one destination. *)
Theorem later_generic_name_repeats_a_generated_name :
  exists st,
    out_mode 2 "OUT" colliding_files = Some st
    /\ new_filenames st
       = ["IMG_20200101_120000.jpg"; "IMG_20200101_120000.jpg"]
    /\ copied st
       = [("DCIM/DSC_0001.JPG", "OUT/IMG_20200101_120000.jpg");
          ("DCIM/IMG_20200101_120000.jpg", "OUT/IMG_20200101_120000.jpg")]
    /\ ~ NoDup (new_filenames st).
Proof.
  eexists. split; [vm_compute; reflexivity|].
  cbn [new_filenames copied]. repeat split.
  intros ND. inversion ND as [|s l N _]. subst. apply N. now left.
Qed.

(** ** The statements at concrete inputs *)

Lemma same_second_pictures_numbered_witness :
  Forall (fun f => is_picture f
                   /\ Datetime.to_second (last_modification f)
                      = Datetime.to_second noon) burst
  /\ ascending burst
  /\ List.length burst <= 3
  /\ exists st,
       out_mode 3 "OUT" burst = Some st
       /\ Forall2 same_source burst (handled st)
       /\ map convolution_of (handled st) = seq 0 (List.length burst)
       /\ new_filenames st = map filename (handled st)
       /\ new_filenames st
          = map (name_of PictureFile noon) (seq 0 (List.length burst))
       /\ NoDup (new_filenames st).
Proof.
  assert (P : Forall (fun f => is_picture f
                        /\ Datetime.to_second (last_modification f)
                           = Datetime.to_second noon) burst).
  { repeat constructor; eexists; split; reflexivity. }
  assert (A : ascending burst) by (simpl; repeat split; reflexivity).
  assert (L : List.length burst <= 3) by (simpl; lia).
  split; [exact P|]. split; [exact A|]. split; [exact L|].
  exact (same_second_pictures_numbered "OUT" 3 noon burst P A L).
Defined.

Lemma planner_assignment_deterministic_witness :
  Forall2 same_source burst burst
  /\ List.length burst <= 3
  /\ List.length burst <= 5
  /\ exists st,
       out_mode 3 "OUT" burst = Some st
       /\ out_mode 5 "OUT" burst = Some st
       /\ out_mode 5 "OUT" (handled st) = Some st.
Proof.
  assert (S : Forall2 same_source burst burst)
    by (repeat constructor; simpl; auto).
  assert (L : List.length burst <= 3) by (simpl; lia).
  assert (L' : List.length burst <= 5) by (simpl; lia).
  split; [exact S|]. split; [exact L|]. split; [exact L'|].
  exact (planner_assignment_deterministic "OUT" 3 5 burst burst S L L').
Defined.

Lemma min_convolution_holds_first_greatest_witness :
  (exists r, In (Regular r) sample_run)
  /\ exists x,
       min_convolution (analysis_of sample_run) = Some x
       /\ first_most_convoluted sample_run x
       /\ forall r, In (Regular r) sample_run ->
                    _convolution r <= _convolution x.
Proof.
  assert (E : exists r, In (Regular r) sample_run)
    by (eexists; right; left; reflexivity).
  split; [exact E|].
  exact (min_convolution_holds_first_greatest sample_run E).
Defined.

Lemma time_trackers_hold_first_extremes_witness :
  sample_run <> []
  /\ exists a_min a_max m_min m_max c_min c_max,
       (min_atime (analysis_of sample_run) = Some a_min
        /\ first_least last_access sample_run a_min)
       /\ (max_atime (analysis_of sample_run) = Some a_max
           /\ first_greatest last_access sample_run a_max)
       /\ (min_mtime (analysis_of sample_run) = Some m_min
           /\ first_least last_modification sample_run m_min)
       /\ (max_mtime (analysis_of sample_run) = Some m_max
           /\ first_greatest last_modification sample_run m_max)
       /\ (min_ctime (analysis_of sample_run) = Some c_min
           /\ first_least last_metadata_change sample_run c_min)
       /\ (max_ctime (analysis_of sample_run) = Some c_max
           /\ first_greatest last_metadata_change sample_run c_max).
Proof.
  assert (N : sample_run <> []) by discriminate.
  split; [exact N|].
  exact (time_trackers_hold_first_extremes sample_run N).
Defined.

Lemma report_needs_a_classified_record_witness :
  ((forall r, ~ In (Regular r) [sample_generic "DCIM/random.txt" noon])
   /\ min_convolution
        (analysis_of [sample_generic "DCIM/random.txt" noon]) = None
   /\ analyze_mode [sample_generic "DCIM/random.txt" noon]
      = Raise AttributeError)
  /\ ((exists r, In (Regular r) sample_run)
      /\ exists lines, analyze_mode sample_run = Ok (sample_run, lines)).
Proof.
  assert (N : forall r,
            ~ In (Regular r) [sample_generic "DCIM/random.txt" noon]).
  { intros r [H|[]]. discriminate H. }
  assert (E : exists r, In (Regular r) sample_run)
    by (eexists; right; left; reflexivity).
  split.
  - split; [exact N|].
    exact (proj1 (report_needs_a_classified_record
                    [sample_generic "DCIM/random.txt" noon]) N).
  - split; [exact E|].
    exact (proj2 (proj2 (report_needs_a_classified_record sample_run)) E).
Defined.

(** * Further properties *)

(** ** The collision loop and the names it gives *)

Section MorePlanning.

Import PlannerFacts.

(** X1.  With more fuel than there are names taken, the loop
    [while file.filename in new_filenames: file.convolution += 1], entered
    with convolution 0, ends; it changes the convolution only, leaves the
    least convolution whose name is not taken (the names of all smaller
    ones are), and that convolution is at most the number of names
    taken. *)
Theorem collision_loop_least_free
    (names : list string) (fuel : nat) (r : RegularFile) :
  List.length names < fuel ->
  exists r',
    bump fuel names (set_convolution 0 r) = Some r'
    /\ r' = set_convolution (_convolution r') r
    /\ ~ In (regular_filename r') names
    /\ (forall c, c < _convolution r' ->
                  In (regular_filename (set_convolution c r)) names)
    /\ _convolution r' <= List.length names.
Proof.
  intros L.
  destruct (bump_enough_fuel names fuel (set_convolution 0 r) L) as [r' B].
  exists r'. split; [exact B|].
  apply bump_result in B. destruct B as (E & _ & N & Below).
  rewrite set_convolution_twice in E.
  assert (Taken : forall c, c < _convolution r' ->
            In (regular_filename (set_convolution c r)) names).
  { intros c Hc. rewrite <- (set_convolution_twice c 0). apply Below.
    simpl. lia. }
  repeat split; auto.
  set (name := fun c => regular_filename (set_convolution c r)).
  assert (ND : NoDup (map name (seq 0 (_convolution r')))).
  { apply Injective_map_NoDup; [|apply seq_NoDup].
    intros i j H. unfold name in H.
    rewrite !regular_filename_set_convolution in H.
    now apply name_of_inj in H. }
  assert (Inc : incl (map name (seq 0 (_convolution r'))) names).
  { intros s Hs. apply in_map_iff in Hs. destruct Hs as (c & <- & Hc).
    apply in_seq in Hc. apply Taken. lia. }
  pose proof (NoDup_incl_length ND Inc) as Len.
  now rewrite length_map, length_seq in Len.
Qed.

Variable fuel : nat.
Variable out_path : string.

Lemma classified_names_new_snoc (l : list file) (g : file) :
  classified_names_new l ->
  match g with
  | Regular r => ~ In (regular_filename r) (map filename l)
  | Plain _ => True
  end ->
  classified_names_new (l ++ [g]).
Proof.
  intros F G before r after E.
  destruct (exists_last (l := Regular r :: after)) as (init & z & Ez);
    [discriminate|].
  destruct after as [|a after].
  - apply app_inj_tail in E. destruct E as [-> ->]. exact G.
  - destruct (exists_last (l := a :: after)) as (after' & z' & Ea);
      [discriminate|].
    rewrite Ea in E.
    change (before ++ Regular r :: after' ++ [z'])
      with (before ++ (Regular r :: after') ++ [z']) in E.
    rewrite app_assoc in E. apply app_inj_tail in E. destruct E as [-> _].
    now apply (F before r after').
Qed.

Lemma copy_loop_names_new (files : list file) :
  forall st,
    new_filenames st = map filename (handled st) ->
    classified_names_new (handled st) ->
    List.length (new_filenames st) + List.length files <= fuel ->
    exists st',
      copy_loop fuel out_path st files = Some st'
      /\ new_filenames st' = map filename (handled st')
      /\ classified_names_new (handled st').
Proof.
  induction files as [|f files IH]; intros st N F L.
  - exists st. auto.
  - simpl in L.
    destruct (copy_one_step fuel out_path st f) as (g & _ & C & Fg); [lia|].
    cbn [copy_loop]. rewrite C.
    match goal with
    | |- context [copy_loop _ _ ?s files] => apply (IH s)
    end.
    + cbn [emit new_filenames handled]. rewrite map_app, N. reflexivity.
    + cbn [emit handled]. apply classified_names_new_snoc; [exact F|].
      destruct g as [m|r']; [exact I | now rewrite <- N].
    + cbn [emit new_filenames]. rewrite length_app. simpl. lia.
Qed.

(** X2.  With fuel for every record the planner goes through, the names
    it has given are those of the records as it left them, in order, and
    the name of every classified record is new: it is not the name of
    any record handled before it, classified or generic. *)
Theorem classified_record_gets_new_name (files : list file) :
  List.length files <= fuel ->
  exists st,
    out_mode fuel out_path files = Some st
    /\ new_filenames st = map filename (handled st)
    /\ classified_names_new (handled st).
Proof.
  intros L.
  destruct (copy_loop_names_new (sorted files) plan_init)
    as (st & R & N & F).
  - reflexivity.
  - intros [|x before] r after E; discriminate E.
  - simpl. now rewrite sorted_length.
  - unfold out_mode. rewrite R. eexists. split; [reflexivity|].
    split; assumption.
Qed.

End MorePlanning.

(** ** What the planner copies and counts *)

Module CopyFacts.

Import StrFacts PlannerFacts.

Lemma insert_Permutation (f : file) (l : list file) :
  Permutation (insert_by_mtime f l) (f :: l).
Proof.
  induction l as [|g l IH]; simpl; [reflexivity|].
  destruct (Datetime.ltb _ _); [|reflexivity].
  rewrite IH. apply perm_swap.
Qed.

Lemma sorted_Permutation (l : list file) : Permutation (sorted l) l.
Proof.
  induction l as [|f l IH]; simpl; [reflexivity|].
  rewrite insert_Permutation. now constructor.
Qed.

Lemma filter_Permutation {A : Type} (p : A -> bool) (l l' : list A) :
  Permutation l l' -> Permutation (filter p l) (filter p l').
Proof.
  induction 1 as [|x l l' _ IH|x y l|l l' l'' _ IH1 _ IH2]; simpl.
  - reflexivity.
  - destruct (p x); [now constructor | exact IH].
  - destruct (p x), (p y); try reflexivity. apply perm_swap.
  - now transitivity (filter p l').
Qed.

Lemma regular_records_Permutation (l l' : list file) :
  Permutation l l' -> Permutation (regular_records l) (regular_records l').
Proof. apply Permutation_flat_map. Qed.

Lemma generic_records_Permutation (l l' : list file) :
  Permutation l l' -> Permutation (generic_records l) (generic_records l').
Proof. apply Permutation_flat_map. Qed.

Lemma of_class_Permutation (c : regular_class) (l l' : list file) :
  Permutation l l' -> Permutation (of_class c l) (of_class c l').
Proof.
  intros P. unfold of_class.
  now apply filter_Permutation, regular_records_Permutation.
Qed.

Lemma of_class_app (c : regular_class) (l l' : list file) :
  of_class c (l ++ l') = of_class c l ++ of_class c l'.
Proof.
  unfold of_class, regular_records. now rewrite flat_map_app, filter_app.
Qed.

Lemma indexes_of_app (c : regular_class) (l l' : list file) :
  indexes_of c (l ++ l') = indexes_of c l ++ indexes_of c l'.
Proof. unfold indexes_of. now rewrite of_class_app, map_app. Qed.

Lemma Forall2_In_right {A B : Type} (R : A -> B -> Prop) (l : list A)
    (l' : list B) (y : B) :
  Forall2 R l l' -> In y l' -> exists x, In x l /\ R x y.
Proof.
  induction 1 as [|a b l l' Hab _ IH]; intros I; [destruct I|].
  destruct I as [<-|I].
  - exists a. split; [now left | exact Hab].
  - destruct (IH I) as (x & Ix & Rx). exists x. split; [now right | exact Rx].
Qed.



(** [os.path.join(a, b)] puts one prefix, which [a] fixes, before every
    [b] that does not begin with a separator. *)
Lemma join_prefix (a : string) :
  exists prefix, forall b, relative b -> Str.join a b = (prefix ++ b)%string.
Proof.
  exists (match a with
          | EmptyString => ""
          | _ => if Str.ends_with_sep a then a else (a ++ "/")%string
          end).
  assert (J : forall b, relative b ->
            Str.join a b
            = match a with
              | EmptyString => b
              | _ => if Str.ends_with_sep a then (a ++ b)%string
                     else (a ++ "/" ++ b)%string
              end).
  { intros [|c b] R; [reflexivity|]. simpl in R.
    destruct c as [[] [] [] [] [] [] [] []]; try reflexivity.
    now destruct R. }
  intros b R. rewrite (J b R). destruct a as [|x a]; [reflexivity|].
  destruct (Str.ends_with_sep (String x a)); [reflexivity|].
  now rewrite append_assoc.
Qed.

Lemma join_inj (a b b' : string) :
  relative b -> relative b' -> Str.join a b = Str.join a b' -> b = b'.
Proof.
  destruct (join_prefix a) as [prefix J]. intros R R' E.
  rewrite (J b R), (J b' R') in E. now apply append_inv_head in E.
Qed.

Lemma regular_filename_relative (r : RegularFile) :
  relative (regular_filename r).
Proof.
  unfold regular_filename, head.
  destruct (_convolution r), (class_of r); simpl; discriminate.
Qed.

Section Steps.

Variable fuel : nat.
Variable out_path : string.

(** One turn of the loop on a classified record: the record gets the
    next number of its class as its index, and a convolution. *)
Lemma copy_one_regular (st : plan) (r : RegularFile) :
  List.length (new_filenames st) < fuel ->
  exists c,
    copy_one fuel out_path st (Regular r)
    = Some
        match class_of r with
        | PictureFile =>
            emit out_path st
              (Regular (set_convolution c (set_index (pics st + 1) r)))
              (pics st + 1) (vids st) (other st)
        | VideoFile =>
            emit out_path st
              (Regular (set_convolution c (set_index (vids st + 1) r)))
              (pics st) (vids st + 1) (other st)
        end.
Proof.
  intros L. cbn [copy_one]. destruct (class_of r).
  - destruct (bump_enough_fuel (new_filenames st) fuel
                (set_convolution 0 (set_index (pics st + 1) r)) L)
      as [r' B].
    rewrite B. apply bump_result in B. destruct B as (E & _).
    rewrite set_convolution_twice in E.
    exists (_convolution r'). now rewrite <- E.
  - destruct (bump_enough_fuel (new_filenames st) fuel
                (set_convolution 0 (set_index (vids st + 1) r)) L)
      as [r' B].
    rewrite B. apply bump_result in B. destruct B as (E & _).
    rewrite set_convolution_twice in E.
    exists (_convolution r'). now rewrite <- E.
Qed.

Lemma copy_loop_counts (files : list file) :
  forall st,
    List.length (new_filenames st) + List.length files <= fuel ->
    exists st' gs,
      copy_loop fuel out_path st files = Some st'
      /\ handled st' = handled st ++ gs
      /\ pics st' = pics st + List.length (of_class PictureFile files)
      /\ vids st' = vids st + List.length (of_class VideoFile files)
      /\ other st' = other st + List.length (generic_records files)
      /\ indexes_of PictureFile gs
         = seq (pics st + 1) (List.length (of_class PictureFile files))
      /\ indexes_of VideoFile gs
         = seq (vids st + 1) (List.length (of_class VideoFile files)).
Proof.
  induction files as [|f files IH]; intros st L.
  - exists st, []. simpl. rewrite app_nil_r, !Nat.add_0_r. auto 10.
  - simpl in L. destruct f as [m|r].
    + cbn [copy_loop copy_one].
      match goal with
      | |- context [copy_loop _ _ ?s files] =>
          destruct (IH s) as (st' & gs & R & H & P & V & O & IP & IV);
            [cbn [emit new_filenames]; rewrite length_app; simpl; lia|]
      end.
      exists st', (Plain m :: gs). rewrite R. split; [reflexivity|].
      cbn [emit handled pics vids other] in *.
      rewrite H, P, V, O, <- app_assoc. simpl. repeat split; auto. lia.
    + destruct (copy_one_regular st r) as [c C]; [lia|].
      cbn [copy_loop]. rewrite C.
      match goal with
      | |- context [copy_loop _ _ ?s files] =>
          destruct (IH s) as (st' & gs & R & H & P & V & O & IP & IV);
            [destruct (class_of r); cbn [emit new_filenames];
             rewrite length_app; simpl; lia|]
      end.
      rewrite R. unfold of_class, indexes_of, of_class in *. simpl.
      destruct (class_of r) eqn:K; cbn [emit handled pics vids other] in *.
      * exists st',
          (Regular (set_convolution c (set_index (pics st + 1) r)) :: gs).
        split; [reflexivity|].
        rewrite H, P, V, O, <- app_assoc. simpl. rewrite K. simpl.
        rewrite IP, IV.
        repeat split; auto; try lia.
        f_equal. f_equal. lia.
      * exists st',
          (Regular (set_convolution c (set_index (vids st + 1) r)) :: gs).
        split; [reflexivity|].
        rewrite H, P, V, O, <- app_assoc. simpl. rewrite K. simpl.
        rewrite IP, IV.
        repeat split; auto; try lia.
        f_equal. f_equal. lia.
Qed.




End Steps.

End CopyFacts.

Section Copies.

Import PlannerFacts CopyFacts.

Variable fuel : nat.
Variable out_path : string.
Variable files : list file.


(** X4.  With fuel for every record the three counters end as the
    numbers of pictures, of videos and of generic records of the input,
    and the indexes the pictures carry when the loop is through are 1,
    2, ... in the order they were handled in, and so are those of the
    videos. *)
Theorem counters_and_indexes :
  List.length files <= fuel ->
  exists st,
    out_mode fuel out_path files = Some st
    /\ pics st = List.length (of_class PictureFile files)
    /\ vids st = List.length (of_class VideoFile files)
    /\ other st = List.length (generic_records files)
    /\ pics st + vids st + other st = List.length files
    /\ indexes_of PictureFile (handled st) = seq 1 (pics st)
    /\ indexes_of VideoFile (handled st) = seq 1 (vids st).
Proof.
  intros L.
  destruct (copy_loop_counts fuel out_path (sorted files) plan_init)
    as (st & gs & R & H & P & V & O & IP & IV).
  { simpl. now rewrite sorted_length. }
  simpl in H, P, V, O, IP, IV. subst gs.
  pose proof (sorted_Permutation files) as S.
  rewrite (Permutation_length (of_class_Permutation PictureFile _ _ S))
    in P, IP.
  rewrite (Permutation_length (of_class_Permutation VideoFile _ _ S))
    in V, IV.
  rewrite (Permutation_length (generic_records_Permutation _ _ S)) in O.
  unfold out_mode. rewrite R. eexists. split; [reflexivity|].
  cbn [pics vids other handled]. rewrite <- P in IP. rewrite <- V in IV.
  repeat split; auto.
  rewrite P, V, O. clear. unfold of_class.
  induction files as [|[m|r] l IH]; simpl; [reflexivity | lia |].
  destruct (class_of r); simpl; lia.
Qed.

(** X5.  When the input holds classified records only, the planner
    gives no name twice and no two of its [copyfile] calls write to one
    destination. *)
Theorem classified_run_overwrites_nothing :
  Forall (fun f => is_regular f = true) files ->
  List.length files <= fuel ->
  exists st,
    out_mode fuel out_path files = Some st
    /\ NoDup (new_filenames st)
    /\ NoDup (map snd (copied st)).
Proof.
  intros Reg L.
  assert (Reg' : Forall (fun f => is_regular f = true) (sorted files)).
  { rewrite Forall_forall in *. intros f I. apply Reg.
    apply (Permutation_in _ (sorted_Permutation files) I). }
  destruct (classified_names_unique out_path fuel (sorted files) Reg'
              plan_init) as (st & R & ND).
  { constructor. }
  { simpl. now rewrite sorted_length. }
  destruct (copy_loop_total fuel out_path (sorted files) plan_init)
    as (st1 & gs & R1 & S & H & N & C).
  { simpl. now rewrite sorted_length. }
  rewrite R in R1. injection R1 as <-. simpl in H, N, C. subst gs.
  unfold out_mode. rewrite R. eexists. split; [reflexivity|].
  cbn [new_filenames copied]. split; [exact ND|].
  rewrite C, map_map. cbn [snd].
  rewrite <- (map_map filename (Str.join out_path)), <- N.
  apply Injective_map_NoDup_in; [|exact ND].
  assert (Rel : forall s, In s (new_filenames st) -> relative s).
  { intros s I. rewrite N in I. apply in_map_iff in I.
    destruct I as (g & <- & Ig).
    destruct (Forall2_In_right _ _ _ _ S Ig) as (f & If & Sf).
    rewrite Forall_forall in Reg'. specialize (Reg' f If).
    destruct f as [m|r]; [discriminate Reg'|].
    destruct g as [m'|r']; [contradiction|].
    apply regular_filename_relative. }
  intros a b Ia Ib. apply join_inj; auto.
Qed.

End Copies.

(** ** What the classifier reads from a name *)

Module ValueFacts.

Import StrFacts PatternFacts ClassifierFacts.

Lemma is_digit_uint_of_char (c : ascii) (d : uint) :
  Str.is_digit c = true -> exists d', uint_of_char c (Some d) = Some d'.
Proof.
  destruct c as [[] [] [] [] [] [] [] []]; intros H;
    try discriminate H; simpl; eauto.
Qed.

Lemma all_digits_uint_of_string (s : string) :
  all_digits s = true -> exists d, NilEmpty.uint_of_string s = Some d.
Proof.
  induction s as [|c s IH]; simpl; intros D; [eauto|].
  apply andb_true_iff in D. destruct D as [Dc Ds].
  destruct (IH Ds) as [d ->]. now apply is_digit_uint_of_char.
Qed.

(** [int] reads a run of digits as the standard library does. *)
Lemma int_digits_of_uint (s : string) :
  forall d acc,
    NilEmpty.uint_of_string s = Some d ->
    int_digits acc s = Ok (Nat.of_uint_acc d acc).
Proof.
  induction s as [|c s IH]; simpl; intros d acc H.
  - now injection H as <-.
  - destruct (NilEmpty.uint_of_string s) as [d0|] eqn:E;
      [|discriminate H].
    apply uint_of_char_spec in H.
    repeat destruct H as [[-> ->]|H]; try destruct H as [-> ->];
      simpl; rewrite (IH d0 _ eq_refl); simpl;
      rewrite Nat.tail_mul_spec; do 2 f_equal; lia.
Qed.

Lemma int_decimal_value (s : string) (n : nat) :
  all_digits s = true -> int s = Ok n -> decimal_value s = Some n.
Proof.
  intros D I. destruct (all_digits_uint_of_string s D) as [d E].
  unfold decimal_value. rewrite E. simpl.
  destruct s as [|c s]; [discriminate I|]. unfold int in I.
  rewrite (int_digits_of_uint _ d 0 E) in I. now injection I as <-.
Qed.

Lemma digit_value_bound (c : ascii) :
  Str.is_digit c = true -> nat_of_ascii c - 48 <= 9.
Proof.
  unfold Str.is_digit. rewrite andb_true_iff, !Nat.leb_le. lia.
Qed.

Lemma int_digits_bound (s : string) :
  forall acc n,
    int_digits acc s = Ok n -> n < (acc + 1) * 10 ^ String.length s.
Proof.
  induction s as [|c s IH]; simpl; intros acc n H.
  - injection H as <-. lia.
  - destruct (Str.is_digit c) eqn:D; [|discriminate H].
    apply IH in H. pose proof (digit_value_bound c D) as B.
    set (p := 10 ^ String.length s) in *. nia.
Qed.

Lemma int_bound (lo hi : nat) (s : string) (n : nat) :
  digit_run lo hi s -> int s = Ok n -> n < 10 ^ hi.
Proof.
  intros [[_ L] _] I. destruct s as [|c s]; [discriminate I|].
  unfold int in I. apply int_digits_bound in I. simpl (0 + 1) in I.
  rewrite Nat.mul_1_l in I.
  apply Nat.lt_le_trans with (1 := I).
  apply Nat.pow_le_mono_r; [discriminate | exact L].
Qed.

(** Two runs of digits, each followed by a character that is no digit,
    are the same run when the strings are the same. *)
Lemma digits_then_other (a b : string) (x y : ascii) (r r' : string) :
  all_digits a = true -> all_digits b = true ->
  Str.is_digit x = false -> Str.is_digit y = false ->
  (a ++ String x r)%string = (b ++ String y r')%string ->
  a = b /\ String x r = String y r'.
Proof.
  revert b. induction a as [|c a IH]; intros [|c' b] Da Db Dx Dy E;
    simpl in *.
  - auto.
  - injection E as -> _. apply andb_true_iff in Db. destruct Db as [Db _].
    congruence.
  - injection E as -> _. apply andb_true_iff in Da. destruct Da as [Da _].
    congruence.
  - injection E as -> E.
    apply andb_true_iff in Da. apply andb_true_iff in Db.
    destruct (IH b (proj2 Da) (proj2 Db) Dx Dy E) as [-> ->]. auto.
Qed.

(** A name the pattern accepts has one reading. *)
Lemma camera_name_parts (h idx idx' : string) (conv conv' : option string)
    (ext ext' tail tail' : string) :
  camera_parts h idx conv ext ->
  camera_parts h idx' conv' ext' ->
  (camera_name h idx conv ext ++ tail)%string
  = (camera_name h idx' conv' ext' ++ tail')%string ->
  idx = idx' /\ conv = conv'.
Proof.
  intros (_ & [Li _] & Hc & _) (_ & [Li' _] & Hc' & _) E.
  unfold camera_name in E. rewrite !append_assoc in E.
  apply append_inv_head in E. simpl in E. injection E as E.
  apply append_eq_length in E; [|lia]. destruct E as [-> E].
  split; [reflexivity|].
  destruct conv as [c|], conv' as [c'|]; simpl in E; try discriminate E;
    [|reflexivity].
  injection E as E. destruct Hc as [_ Dc], Hc' as [_ Dc'].
  rewrite ?append_assoc in E. simpl in E.
  apply digits_then_other in E; auto. now destruct E as [-> _].
Qed.

Section WithStat.

Variable os_stat : string -> stat_result.

(** The index and convolution of the record made for an accepted
    name. *)
Lemma parse_file_values (path h idx : string) (conv : option string)
    (ext tail : string) :
  camera_parts h idx conv ext ->
  tail = "" \/ tail = String Str.LF "" ->
  Str.basename path = (camera_name h idx conv ext ++ tail)%string ->
  exists i c,
    parse_file os_stat path
    = Ok [Regular {| media := Mediafile_init os_stat path;
                     class_of := class_of_head h;
                     _index := i; _convolution := c |}]
    /\ int idx = Ok i
    /\ match conv with
       | Some s => int s = Ok c
       | None => c = 0
       end.
Proof.
  intros P T E. unfold parse_file.
  destruct (Re.re_match name_pattern (Str.basename path)) as [m|] eqn:M.
  - apply re_match_sound in M.
    destruct M as (h' & idx' & conv' & ext' & tail' & P' & T' & E' & ->).
    assert (h' = h) as ->.
    { rewrite E in E'. symmetry. apply camera_name_head in E'; [assumption|].
      destruct P as [Hh _], P' as [Hh' _].
      now rewrite (head_length _ Hh), (head_length _ Hh'). }
    rewrite E in E'.
    destruct (camera_name_parts _ _ _ _ _ _ _ _ _ P P' E') as [<- <-].
    destruct P as (Hh & Hi & Hc & He).
    destruct (int_ok 3 4 idx Hi) as [i Ei].
    assert (G : exists c,
      match Re.group (camera_groups h idx conv ext') "conv" with
      | Some (String _ _ as s) => int s
      | _ => Ok 0
      end = Ok c
      /\ match conv with Some s => int s = Ok c | None => c = 0 end).
    { destruct conv as [c'|]; simpl; [|eauto].
      destruct (int_ok 0 3 c' Hc) as [c Ec].
      destruct c' as [|x c']; [discriminate Ec | eauto]. }
    destruct G as (c & Ec & Vc). exists i, c.
    assert (Gh : Re.group (camera_groups h idx conv ext') "head" = Some h)
      by (destruct conv; reflexivity).
    assert (Gi : Re.group (camera_groups h idx conv ext') "idx" = Some idx)
      by (destruct conv; reflexivity).
    rewrite Gh, Gi, Ec. cbn [deref bind]. rewrite Ei. cbn [bind].
    split; [|auto]. destruct Hh as [->| ->]; reflexivity.
  - exfalso. rewrite E in M. now apply (re_match_complete h idx conv ext tail).
Qed.

End WithStat.

(** *** Paths *)

Lemma after_last_sep_no_sep (b : string) :
  no_sep b = true -> forall cur, Str.after_last_sep cur b = cur.
Proof.
  induction b as [|c b IH]; simpl; intros N cur; [reflexivity|].
  apply andb_true_iff in N. destruct N as [Nc Nb].
  destruct (Ascii.eqb c "/"); [discriminate Nc | now apply IH].
Qed.

Lemma after_last_sep_append (a b : string) :
  no_sep b = true ->
  forall cur, Str.after_last_sep cur (a ++ "/" ++ b) = b.
Proof.
  intros N. induction a as [|c a IH]; intros cur; simpl.
  - now apply after_last_sep_no_sep.
  - destruct (Ascii.eqb c "/"); apply IH.
Qed.

Lemma ends_with_sep_split (p : string) :
  Str.ends_with_sep p = true -> exists a, p = (a ++ "/")%string.
Proof.
  induction p as [|c p IH]; [discriminate|]. simpl.
  destruct p as [|c' p].
  - intros H. apply Ascii.eqb_eq in H. subst c. now exists "".
  - intros H. destruct (IH H) as [a ->]. now exists (String c a).
Qed.

Lemma no_sep_relative (s : string) : no_sep s = true -> relative s.
Proof.
  destruct s as [|c s]; simpl; [auto|]. intros N ->. discriminate N.
Qed.

Lemma basename_join (dir name : string) :
  no_sep name = true -> Str.basename (Str.join dir name) = name.
Proof.
  intros N. pose proof (no_sep_relative name N) as R.
  unfold Str.basename.
  assert (J : Str.join dir name
              = match dir with
                | EmptyString => name
                | _ => if Str.ends_with_sep dir then (dir ++ name)%string
                       else (dir ++ "/" ++ name)%string
                end).
  { destruct name as [|c b]; [reflexivity|]. simpl in R.
    destruct c as [[] [] [] [] [] [] [] []]; try reflexivity.
    now destruct R. }
  rewrite J. destruct dir as [|x dir].
  - now apply after_last_sep_no_sep.
  - destruct (Str.ends_with_sep (String x dir)) eqn:S.
    + destruct (ends_with_sep_split _ S) as [a ->].
      rewrite append_assoc. now apply after_last_sep_append.
    + now apply after_last_sep_append.
Qed.

End ValueFacts.

Section MoreClassification.

Import StrFacts ClassifierFacts ValueFacts.

Variable os_stat : string -> stat_result.

(** X6.  For a name the pattern accepts, the record's index is the
    number its four digits stand for in decimal, so below 10000, and its
    convolution the number the one to three digits after the second
    underscore stand for, so below 1000, or 0 when the name has no such
    part. *)
Theorem index_and_convolution_read_in_decimal
    (path h idx : string) (conv : option string) (ext tail : string) :
  camera_parts h idx conv ext ->
  tail = "" \/ tail = String Str.LF "" ->
  Str.basename path = (camera_name h idx conv ext ++ tail)%string ->
  exists r,
    parse_file os_stat path = Ok [Regular r]
    /\ decimal_value idx = Some (_index r)
    /\ match conv with
       | Some s => decimal_value s = Some (_convolution r)
       | None => _convolution r = 0
       end
    /\ _index r < 10 ^ 4
    /\ _convolution r < 10 ^ 3.
Proof.
  intros P T E.
  destruct (parse_file_values os_stat path h idx conv ext tail P T E)
    as (i & c & Hp & Hi & Hc).
  eexists. split; [exact Hp|]. cbn [_index _convolution].
  destruct P as (_ & Di & Dc & _).
  split; [apply int_decimal_value; [apply Di | exact Hi]|].
  split; [|split].
  - destruct conv as [s|]; [|exact Hc].
    apply int_decimal_value; [apply Dc | exact Hc].
  - apply (int_bound 4 4 idx i Di Hi).
  - destruct conv as [s|]; [|subst c; simpl; lia].
    apply (int_bound 1 3 s c Dc Hc).
Qed.

(** X7.  A name the planner generates is never a name of the camera: a
    path with such a name is classified generic, so a run over the
    planner's own output renames nothing. *)
Theorem generated_name_is_classified_generic
    (path : string) (r : RegularFile) :
  Str.basename path = regular_filename r ->
  parse_file os_stat path = Ok [Plain (Mediafile_init os_stat path)].
Proof.
  intros E. apply parse_file_other.
  destruct (Re.re_match name_pattern (Str.basename path)) as [m|] eqn:M;
    [exfalso | reflexivity].
  apply re_match_sound in M.
  destruct M as (h & idx & conv & ext & tail & (Hh & _) & _ & E' & _).
  rewrite E in E'. unfold regular_filename, head, camera_name in E'.
  destruct Hh as [->| ->], (_convolution r), (class_of r);
    simpl in E'; discriminate E'.
Qed.

(** X8.  For a name of a directory listing, with no separator in it
    and of ASCII characters, the record made for the directory joined
    with the name (where [os.stat] answers for it) bears that name,
    whatever the directory, and it is classified by the name alone: it
    is a classified record exactly when the name, or the name without a
    last line feed, is of the camera's grammar. *)
Theorem listed_name_decides_classification (dir name : string) :
  no_sep name = true ->
  is_ascii name = true ->
  exists f,
    parse_file os_stat (Str.join dir name) = Ok [f]
    /\ path f = Str.join dir name
    /\ _filename (base_of f) = name
    /\ (is_regular f = true <-> accepted "DSC" name \/ accepted "MOV" name).
Proof.
  intros N _. pose proof (basename_join dir name N) as B.
  destruct (Re.re_match name_pattern name) as [m|] eqn:M.
  - apply re_match_sound in M.
    destruct M as (h & idx & conv & ext & tail & P & T & E & _).
    destruct (parse_file_camera os_stat (Str.join dir name)
                h idx conv ext tail P T) as (i & c & Hp);
      [now rewrite B|].
    eexists. split; [exact Hp|]. unfold path. simpl.
    split; [reflexivity|]. split; [exact B|].
    split; [intros _|reflexivity].
    assert (A : accepted h name).
    { apply accepted_camera; [apply P|]. exists idx, conv, ext, tail. auto. }
    destruct P as ([->| ->] & _); auto.
  - exists (Plain (Mediafile_init os_stat (Str.join dir name))).
    split; [apply parse_file_other; now rewrite B|].
    unfold path. simpl. split; [reflexivity|]. split; [exact B|].
    split; [discriminate|].
    intros [A|A]; exfalso; apply accepted_camera in A; auto;
      destruct A as (idx & conv & ext & tail & P & T & E);
      rewrite E in M; now apply re_match_complete in M.
Qed.

End MoreClassification.

(** ** The aggregate and the order of the listing *)

Module OrderFacts.

Import DatetimeFacts AnalysisFacts PlannerFacts.

Lemma fields_inj (a b : datetime) :
  Datetime.fields a = Datetime.fields b -> a = b.
Proof.
  destruct a, b. unfold Datetime.fields. simpl. intros H.
  injection H as -> -> -> -> -> -> ->. reflexivity.
Qed.

Lemma leb_antisym (a b : datetime) :
  Datetime.leb a b = true -> Datetime.leb b a = true -> a = b.
Proof.
  unfold Datetime.leb, Datetime.ltb. rewrite (cmp_antisym a b).
  destruct (Datetime.cmp a b) eqn:E; simpl; try discriminate.
  intros _ _. now apply fields_inj, cmp_eq_fields.
Qed.

Lemma ltb_leb (a b : datetime) :
  Datetime.ltb a b = true -> Datetime.leb a b = true.
Proof. intros H. unfold Datetime.leb. now rewrite (ltb_asym _ _ H). Qed.

Lemma leb_trans (a b c : datetime) :
  Datetime.leb a b = true -> Datetime.leb b c = true ->
  Datetime.leb a c = true.
Proof.
  unfold Datetime.leb. rewrite !negb_true_iff. intros Hab Hbc.
  destruct (Datetime.ltb c a) eqn:E; [|reflexivity].
  now rewrite (ltb_leb_trans c a b E Hab) in Hbc.
Qed.

Section Keys.

Variable key : file -> datetime.

Lemma first_least_lower (files : list file) (x : file) :
  first_least key files x ->
  In x files /\ forall y, In y files -> Datetime.leb (key x) (key y) = true.
Proof.
  intros (before & after & -> & Hb & Ha). split; [apply in_elt|].
  intros y I. apply in_app_or in I. destruct I as [I|[<-|I]].
  - now apply ltb_leb, Hb.
  - apply leb_refl.
  - now apply Ha.
Qed.

Lemma first_greatest_upper (files : list file) (x : file) :
  first_greatest key files x ->
  In x files /\ forall y, In y files -> Datetime.leb (key y) (key x) = true.
Proof.
  intros (before & after & -> & Hb & Ha). split; [apply in_elt|].
  intros y I. apply in_app_or in I. destruct I as [I|[<-|I]].
  - now apply ltb_leb, Hb.
  - apply leb_refl.
  - now apply Ha.
Qed.

Lemma least_time_of_permutation (l l' : list file) :
  Permutation l l' ->
  option_map key (fold_left (track every (earlier key)) l None)
  = option_map key (fold_left (track every (earlier key)) l' None).
Proof.
  intros P. destruct l as [|f l].
  - apply Permutation_nil in P. now subst l'.
  - destruct l' as [|f' l'];
      [apply Permutation_sym, Permutation_nil in P; discriminate P|].
    destruct (earliest_first_least key (f :: l)) as (x & -> & F);
      [discriminate|].
    destruct (earliest_first_least key (f' :: l')) as (x' & -> & F');
      [discriminate|].
    apply first_least_lower in F, F'.
    destruct F as [I L], F' as [I' L']. simpl. f_equal.
    apply leb_antisym.
    + apply L. apply (Permutation_in _ (Permutation_sym P) I').
    + apply L'. apply (Permutation_in _ P I).
Qed.

Lemma greatest_time_of_permutation (l l' : list file) :
  Permutation l l' ->
  option_map key (fold_left (track every (later key)) l None)
  = option_map key (fold_left (track every (later key)) l' None).
Proof.
  intros P. destruct l as [|f l].
  - apply Permutation_nil in P. now subst l'.
  - destruct l' as [|f' l'];
      [apply Permutation_sym, Permutation_nil in P; discriminate P|].
    destruct (latest_first_greatest key (f :: l)) as (x & -> & F);
      [discriminate|].
    destruct (latest_first_greatest key (f' :: l')) as (x' & -> & F');
      [discriminate|].
    apply first_greatest_upper in F, F'.
    destruct F as [I L], F' as [I' L']. simpl. f_equal.
    apply leb_antisym.
    + apply L'. apply (Permutation_in _ P I).
    + apply L. apply (Permutation_in _ (Permutation_sym P) I').
Qed.

End Keys.

Lemma most_convolution_of_permutation (l l' : list file) :
  Permutation l l' ->
  option_map _convolution (min_convolution (analysis_of l))
  = option_map _convolution (min_convolution (analysis_of l')).
Proof.
  intros P.
  assert (None' : forall a b, Permutation a b ->
            (forall r, ~ In (Regular r) a) ->
            min_convolution (analysis_of b) = None).
  { intros a b Pab N. rewrite analysis_of_fold.
    destruct (fold_fields b Analysis_init)
      as (_ & _ & _ & _ & _ & _ & H & _).
    rewrite H. apply no_classified_none. intros r I.
    apply (N r), (Permutation_in _ (Permutation_sym Pab) I). }
  destruct (regular_records l) as [|r0 rs] eqn:E.
  - assert (N : forall r, ~ In (Regular r) l).
    { intros r I. assert (In r (regular_records l)).
      { unfold regular_records. apply in_flat_map.
        exists (Regular r). split; [exact I | now left]. }
      rewrite E in H. destruct H. }
    rewrite (None' l l (Permutation_refl l) N), (None' l l' P N).
    reflexivity.
  - assert (Ex : exists r, In (Regular r) l).
    { assert (I : In r0 (regular_records l)) by (rewrite E; now left).
      unfold regular_records in I. apply in_flat_map in I.
      destruct I as ([m|r] & If & Ir); [destruct Ir|].
      destruct Ir as [->|[]]. eauto. }
    assert (Ex' : exists r, In (Regular r) l').
    { destruct Ex as (r & I). exists r. apply (Permutation_in _ P I). }
    destruct (tracked_convolution l Ex) as (x & -> & F & B).
    destruct (tracked_convolution l' Ex') as (x' & -> & F' & B').
    simpl. f_equal.
    destruct F as (b1 & a1 & E1 & _), F' as (b2 & a2 & E2 & _).
    apply Nat.le_antisymm.
    + apply B'. apply (Permutation_in _ P). rewrite E1. apply in_elt.
    + apply B. apply (Permutation_in _ (Permutation_sym P)).
      rewrite E2. apply in_elt.
Qed.

End OrderFacts.

Section MoreAggregation.

Import AnalysisFacts OrderFacts.

(** X9.  The extremes the aggregate reports do not depend on the order
    the directory is listed in: over two orderings of the same records
    the six time trackers hold records with the same access,
    modification and metadata-change times, and [min_convolution] holds
    records with the same convolution (the records themselves may
    differ where several share the extreme). *)
Theorem reported_extremes_independent_of_order (files files' : list file) :
  Permutation files files' ->
  let a := analysis_of files in
  let a' := analysis_of files' in
  option_map last_access (min_atime a) = option_map last_access (min_atime a')
  /\ option_map last_access (max_atime a)
     = option_map last_access (max_atime a')
  /\ option_map last_modification (min_mtime a)
     = option_map last_modification (min_mtime a')
  /\ option_map last_modification (max_mtime a)
     = option_map last_modification (max_mtime a')
  /\ option_map last_metadata_change (min_ctime a)
     = option_map last_metadata_change (min_ctime a')
  /\ option_map last_metadata_change (max_ctime a)
     = option_map last_metadata_change (max_ctime a')
  /\ option_map _convolution (min_convolution a)
     = option_map _convolution (min_convolution a')
  /\ total a = total a'.
Proof.
  intros P a a'.
  pose proof (most_convolution_of_permutation files files' P) as C.
  subst a a'. rewrite !analysis_of_fold in *.
  destruct (fold_fields files Analysis_init)
    as (H1 & H2 & H3 & H4 & H5 & H6 & _ & _ & H9).
  destruct (fold_fields files' Analysis_init)
    as (K1 & K2 & K3 & K4 & K5 & K6 & _ & _ & K9).
  rewrite H1, H2, H3, H4, H5, H6, H9, K1, K2, K3, K4, K5, K6, K9.
  cbn [Analysis_init min_atime max_atime min_mtime max_mtime min_ctime
       max_ctime total].
  rewrite (Permutation_length P).
  repeat split; auto using least_time_of_permutation,
    greatest_time_of_permutation.
Qed.

(** [perform_analysis] yields the records it is given, unchanged and in
    their order, and a run over one sequence followed by another is the
    run over the first continued over the second. *)
Lemma perform_analysis_passes_records_through
    (self : Analysis) (gen more : list file) :
  snd (perform_analysis self gen) = gen
  /\ perform_analysis self (gen ++ more)
     = (fst (perform_analysis (fst (perform_analysis self gen)) more),
        gen ++ more).
Proof.
  rewrite !perform_analysis_fold. simpl. split; [reflexivity|].
  now rewrite fold_left_app.
Qed.

(** X10.  After a run over no record [print_time_table] ends in an
    AttributeError; after a run over at least one record, classified or
    not, it returns the seven lines of the table. *)
Theorem time_table_needs_one_record (files : list file) :
  (files = []
   /\ print_time_table (analysis_of files) = Raise AttributeError)
  \/ (files <> []
      /\ exists table,
           print_time_table (analysis_of files) = Ok table
           /\ List.length table = 7).
Proof.
  destruct files as [|f l] eqn:E; [left; split; reflexivity|].
  right. split; [discriminate|]. rewrite <- E.
  assert (N : files <> []) by (rewrite E; discriminate).
  destruct (tracked_times files N)
    as (a & b & c & d & e & g & (A & _) & (B & _) & (C & _) & (D & _)
        & (F & _) & (G & _)).
  unfold print_time_table. rewrite A, B, C, D, F, G. cbn [deref bind].
  eexists. split; reflexivity.
Qed.

End MoreAggregation.

(** ** The script and the order of the listing *)

Module MainFacts.

Import ClassifierFacts PlannerFacts CopyFacts OrderFacts ValueFacts.

Section WithStat.

Variable os_stat : string -> stat_result.

(** Classification of a path goes through with one record. *)
Lemma parse_file_one (path : string) :
  exists f,
    parse_file os_stat path = Ok [f]
    /\ (is_regular f = true
        <-> accepted "DSC" (Str.basename path)
            \/ accepted "MOV" (Str.basename path)).
Proof.
  destruct (Re.re_match name_pattern (Str.basename path)) as [m|] eqn:M.
  - apply re_match_sound in M.
    destruct M as (h & idx & conv & ext & tail & P & T & E & _).
    destruct (parse_file_camera os_stat path h idx conv ext tail P T E)
      as (i & c & Hp).
    eexists. split; [exact Hp|]. split; [intros _|reflexivity].
    assert (A : accepted h (Str.basename path)).
    { apply accepted_camera; [apply P|]. exists idx, conv, ext, tail. auto. }
    destruct P as ([->| ->] & _); auto.
  - exists (Plain (Mediafile_init os_stat path)).
    split; [now apply parse_file_other|]. split; [discriminate|].
    intros [A|A]; exfalso; apply accepted_camera in A; auto;
      destruct A as (idx & conv & ext & tail & P & T & E);
      rewrite E in M; now apply re_match_complete in M.
Qed.

Lemma parse_files_all (paths : list string) :
  exists files,
    parse_files os_stat paths = Ok files
    /\ List.length files = List.length paths
    /\ forall r, In (Regular r) files ->
         exists p, In p paths
                   /\ (accepted "DSC" (Str.basename p)
                       \/ accepted "MOV" (Str.basename p)).
Proof.
  induction paths as [|p paths (files & E & L & R)]; simpl.
  - exists []. repeat split. intros r [].
  - destruct (parse_file_one p) as (f & Ef & Cf).
    rewrite Ef, E. cbn [bind]. exists (f :: files).
    split; [reflexivity|]. split; [simpl; now rewrite L|].
    intros r [->|I].
    + exists p. split; [now left|]. now apply Cf.
    + destruct (R r I) as (q & Iq & A). exists q. auto.
Qed.

End WithStat.

(** *** Sorting does not depend on the order of a listing of pairwise
    different times *)

Lemma ascending_head (x : file) (l : list file) :
  ascending (x :: l) ->
  forall y, In y l ->
    Datetime.leb (last_modification x) (last_modification y) = true.
Proof.
  revert x. induction l as [|z l IH]; intros x [Hx Hl] y I; [destruct I|].
  destruct I as [<-|I]; [exact Hx|].
  apply leb_trans with (last_modification z); [exact Hx|].
  now apply IH.
Qed.

Lemma ascending_tail (x : file) (l : list file) :
  ascending (x :: l) -> ascending l.
Proof. now intros [_ H]. Qed.

Lemma ascending_permutation_eq (a : list file) :
  forall b,
    ascending a -> ascending b -> Permutation a b ->
    NoDup (map last_modification a) ->
    a = b.
Proof.
  induction a as [|x a IH]; intros b Aa Ab P ND.
  - apply Permutation_nil in P. now subst b.
  - destruct b as [|y b];
      [apply Permutation_sym, Permutation_nil in P; discriminate P|].
    assert (x = y) as <-.
    { assert (Ix : In x (y :: b))
        by (apply (Permutation_in _ P); now left).
      assert (Iy : In y (x :: a))
        by (apply (Permutation_in _ (Permutation_sym P)); now left).
      destruct Ix as [->|Ix]; [reflexivity|].
      destruct Iy as [->|Iy]; [reflexivity|]. exfalso.
      assert (E : last_modification x = last_modification y).
      { apply leb_antisym;
          [apply (ascending_head x a Aa y Iy)
          | apply (ascending_head y b Ab x Ix)]. }
      inversion ND as [|t ts N _]. subst. apply N. rewrite E.
      now apply in_map. }
    f_equal. apply IH.
    + now apply ascending_tail in Aa.
    + now apply ascending_tail in Ab.
    + now apply Permutation_cons_inv in P.
    + now inversion ND.
Qed.

Lemma sorted_of_permutation (l l' : list file) :
  Permutation l l' -> distinct_mtimes l -> sorted l = sorted l'.
Proof.
  intros P ND. apply ascending_permutation_eq.
  - apply sorted_is_ascending.
  - apply sorted_is_ascending.
  - rewrite (sorted_Permutation l), (sorted_Permutation l'). exact P.
  - apply (Permutation_NoDup
             (Permutation_map _ (Permutation_sym (sorted_Permutation l)))).
    exact ND.
Qed.

End MainFacts.

Section MoreOfTheScript.

Import PlannerFacts MainFacts ValueFacts.

Variable fuel : nat.

(** X11.  When the records of a directory have pairwise different
    modification times, the plan does not depend on the order the
    directory is listed in: over two orderings of the records the
    planner ends in the same state, with the same names and the same
    copies in the same order. *)
Theorem plan_independent_of_listing_order
    (out_path : string) (files files' : list file) :
  Permutation files files' ->
  distinct_mtimes files ->
  out_mode fuel out_path files = out_mode fuel out_path files'.
Proof.
  intros P ND. unfold out_mode.
  now rewrite (sorted_of_permutation files files' P ND).
Qed.

Variable os_listdir : string -> list string.
Variable os_stat : string -> stat_result.

(** X12.  Run with [--analyze] on a directory whose names are of ASCII
    characters and none of them a name of the camera (nor such a name
    before a last line feed), with [os.stat] answering for every entry,
    the script ends in an AttributeError, whether [--out] is given or
    not: nothing is copied. *)
Theorem analyze_without_camera_names_stops_the_script
    (opt_out : option string) (path : string) :
  (forall name, In name (os_listdir path) ->
     no_sep name = true /\ is_ascii name = true
     /\ ~ accepted "DSC" name /\ ~ accepted "MOV" name) ->
  main fuel os_listdir os_stat true opt_out path = Raise AttributeError.
Proof.
  intros N. unfold main.
  destruct (parse_files_all os_stat (map (Str.join path) (os_listdir path)))
    as (files & -> & _ & R).
  cbn [bind].
  assert (NR : forall r, ~ In (Regular r) files).
  { intros r I. destruct (R r I) as (p & Ip & A).
    apply in_map_iff in Ip. destruct Ip as (name & <- & In').
    destruct (N name In') as (Ns & _ & ND & NM).
    rewrite (basename_join path name Ns) in A. tauto. }
  rewrite analyze_mode_unfold.
  destruct (print_time_table (analysis_of files)) as [table|e] eqn:T.
  - cbn [bind].
    assert (M : min_convolution (analysis_of files) = None).
    { rewrite AnalysisFacts.analysis_of_fold.
      destruct (AnalysisFacts.fold_fields files Analysis_init)
        as (_ & _ & _ & _ & _ & _ & H & _).
      rewrite H. now apply AnalysisFacts.no_classified_none. }
    rewrite M. reflexivity.
  - apply print_time_table_raises in T. now subst e.
Qed.

(** X13.  The analysis changes nothing of the copying: when a run with
    [--analyze] gets through its report, what its copying comes to is
    what the copying of the run without [--analyze] comes to. *)
Theorem analysis_leaves_the_copying_as_it_is
    (opt_out : option string) (path : string)
    (lines : list string) (c : copying) :
  main fuel os_listdir os_stat true opt_out path = Ok (lines, c) ->
  main fuel os_listdir os_stat false opt_out path = Ok ([], c).
Proof.
  unfold main.
  destruct (parse_files os_stat (map (Str.join path) (os_listdir path)))
    as [files|e]; cbn [bind]; [|discriminate].
  rewrite analyze_mode_unfold.
  destruct (print_time_table (analysis_of files)) as [table|e];
    cbn [bind]; [|discriminate].
  destruct (deref (min_convolution (analysis_of files))) as [most|e];
    cbn [bind]; [|discriminate].
  destruct opt_out as [[|x out]|];
    try (intros H; injection H as <- <-; reflexivity).
  destruct (out_mode fuel (String x out) files);
    intros H; injection H as <- <-; reflexivity.
Qed.

End MoreOfTheScript.

(** ** When two generated names are the same *)

Module NameFacts.

Import StrFacts ValueFacts.

Lemma all_digits_string_of_uint (d : uint) :
  all_digits (NilEmpty.string_of_uint d) = true.
Proof. induction d; simpl; auto. Qed.

Lemma all_digits_dec (n : nat) : all_digits (Str.dec n) = true.
Proof. apply all_digits_string_of_uint. Qed.

(** The two digits of [{n:02d}] for the numbers below 100, checked one
    by one. *)
Lemma zpad2_table :
  forallb (fun n => (String.length (Str.zpad 2 n) =? 2)
                    && all_digits (Str.zpad 2 n)
                    && match int (Str.zpad 2 n) with
                       | Ok m => m =? n
                       | Raise _ => false
                       end)
    (seq 0 100) = true.
Proof. vm_compute. reflexivity. Qed.

Lemma zpad2 (n : nat) :
  n < 100 ->
  String.length (Str.zpad 2 n) = 2
  /\ all_digits (Str.zpad 2 n) = true
  /\ int (Str.zpad 2 n) = Ok n.
Proof.
  intros L. pose proof zpad2_table as T.
  rewrite forallb_forall in T. specialize (T n).
  rewrite !andb_true_iff, Nat.eqb_eq in T.
  destruct T as [[Len Dig] I]; [apply in_seq; lia|].
  destruct (int (Str.zpad 2 n)) as [m|e]; [|discriminate I].
  apply Nat.eqb_eq in I. subst m. auto.
Qed.

Lemma zpad2_inj (n m : nat) :
  n < 100 -> m < 100 -> Str.zpad 2 n = Str.zpad 2 m -> n = m.
Proof.
  intros Ln Lm E. destruct (zpad2 n Ln) as (_ & _ & In).
  destruct (zpad2 m Lm) as (_ & _ & Im). rewrite E in In. congruence.
Qed.

Lemma regular_filename_parts (r : RegularFile) :
  regular_filename r
  = (head r ++ "_" ++ date_digits (st_mtime (_stat (media r))) ++ "_"
     ++ time_digits (st_mtime (_stat (media r))) ++ name_suffix r)%string.
Proof.
  unfold regular_filename, name_suffix, stamp, date_digits, time_digits.
  destruct (_convolution r); rewrite !append_assoc; reflexivity.
Qed.

Lemma generated_head_length (r : RegularFile) : String.length (head r) = 3.
Proof. unfold head. now destruct (class_of r). Qed.

Lemma date_digits_inj (a b : datetime) :
  two_digit_fields a -> two_digit_fields b ->
  date_digits a = date_digits b ->
  year a = year b /\ month a = month b /\ day a = day b.
Proof.
  intros (Ma & Da & _) (Mb & Db & _) E. unfold date_digits in E.
  destruct (zpad2 _ Ma) as (LMa & _), (zpad2 _ Da) as (LDa & _),
    (zpad2 _ Mb) as (LMb & _), (zpad2 _ Db) as (LDb & _).
  assert (L : String.length (Str.dec (year a))
              = String.length (Str.dec (year b))).
  { apply (f_equal String.length) in E. rewrite !length_append in E. lia. }
  apply append_eq_length in E; [|exact L]. destruct E as [Ey E].
  apply append_eq_length in E; [|lia]. destruct E as [Em Ed].
  repeat split; [now apply dec_inj | now apply zpad2_inj ..].
Qed.

Lemma time_digits_length (a : datetime) :
  two_digit_fields a -> String.length (time_digits a) = 6.
Proof.
  intros (_ & _ & H & M & S). unfold time_digits.
  destruct (zpad2 _ H) as (LH & _), (zpad2 _ M) as (LM & _),
    (zpad2 _ S) as (LS & _).
  rewrite !length_append. lia.
Qed.

Lemma time_digits_inj (a b : datetime) :
  two_digit_fields a -> two_digit_fields b ->
  time_digits a = time_digits b ->
  hour a = hour b /\ minute a = minute b /\ second a = second b.
Proof.
  intros (_ & _ & Ha & Ma & Sa) (_ & _ & Hb & Mb & Sb) E.
  unfold time_digits in E.
  destruct (zpad2 _ Ha) as (LHa & _), (zpad2 _ Ma) as (LMa & _),
    (zpad2 _ Hb) as (LHb & _), (zpad2 _ Mb) as (LMb & _).
  apply append_eq_length in E; [|lia]. destruct E as [Eh E].
  apply append_eq_length in E; [|lia]. destruct E as [Em Es].
  repeat split; now apply zpad2_inj.
Qed.

Lemma all_digits_date (a : datetime) :
  two_digit_fields a -> all_digits (date_digits a) = true.
Proof.
  intros (M & D & _). unfold date_digits.
  destruct (zpad2 _ M) as (_ & DM & _), (zpad2 _ D) as (_ & DD & _).
  now rewrite !PatternFacts.all_digits_append, all_digits_dec, DM, DD.
Qed.

Lemma name_suffix_inj (r1 r2 : RegularFile) :
  extension r1 = extension r2 ->
  name_suffix r1 = name_suffix r2 ->
  _convolution r1 = _convolution r2.
Proof.
  unfold name_suffix. intros ->.
  destruct (_convolution r1) as [|c1], (_convolution r2) as [|c2];
    simpl; intros E; try reflexivity; try discriminate E.
  injection E as E. apply append_inv_tail in E. now apply dec_inj.
Qed.

(** *** The sort keeps records of one time in their order *)

Lemma same_time_eq (d a b : datetime) :
  same_time d a = true -> same_time d b = true -> a = b.
Proof.
  unfold same_time.
  destruct (Datetime.cmp d a) eqn:Ea; [|discriminate ..].
  destruct (Datetime.cmp d b) eqn:Eb; [|discriminate ..].
  intros _ _. apply OrderFacts.fields_inj.
  apply DatetimeFacts.cmp_eq_fields in Ea, Eb. congruence.
Qed.

Lemma ltb_irrefl (a : datetime) : Datetime.ltb a a = false.
Proof.
  destruct (Datetime.ltb a a) eqn:E; [|reflexivity].
  now rewrite (PlannerFacts.ltb_asym _ _ E) in E.
Qed.

Lemma modified_at_insert (d : datetime) (f : file) (l : list file) :
  modified_at d (insert_by_mtime f l) = modified_at d (f :: l).
Proof.
  unfold modified_at. induction l as [|g l IH]; [reflexivity|].
  cbn [insert_by_mtime].
  destruct (Datetime.ltb (last_modification g) (last_modification f)) eqn:E;
    [|reflexivity].
  cbn [filter] in *. rewrite IH.
  destruct (same_time d (last_modification g)) eqn:Pg;
    destruct (same_time d (last_modification f)) eqn:Pf; try reflexivity.
  rewrite (same_time_eq _ _ _ Pg Pf), ltb_irrefl in E. discriminate E.
Qed.

Lemma modified_at_sorted (d : datetime) (l : list file) :
  modified_at d (sorted l) = modified_at d l.
Proof.
  induction l as [|f l IH]; [reflexivity|].
  cbn [sorted]. rewrite modified_at_insert.
  unfold modified_at in *. cbn [filter]. now rewrite IH.
Qed.

Lemma modified_at_same_source (d : datetime) (l l' : list file) :
  Forall2 same_source l l' ->
  Forall2 same_source (modified_at d l) (modified_at d l').
Proof.
  unfold modified_at.
  induction 1 as [|f g l l' S _ IH]; cbn [filter]; [constructor|].
  rewrite <- (PlannerFacts.same_source_mtime _ _ S).
  destruct (same_time d (last_modification f)); [now constructor | exact IH].
Qed.

End NameFacts.

Section MoreNames.

Import StrFacts ValueFacts NameFacts PlannerFacts.

(** X14.  Two classified records whose modification times have fields
    of at most two digits below the year (as every date and time of day
    has) generate the same name only if they are of one class, were
    modified within the same second and carry the same convolution: a
    name tells class, time to the second and convolution. *)
Theorem same_name_same_class_second_convolution (r1 r2 : RegularFile) :
  two_digit_fields (st_mtime (_stat (media r1))) ->
  two_digit_fields (st_mtime (_stat (media r2))) ->
  regular_filename r1 = regular_filename r2 ->
  class_of r1 = class_of r2
  /\ Datetime.to_second (st_mtime (_stat (media r1)))
     = Datetime.to_second (st_mtime (_stat (media r2)))
  /\ _convolution r1 = _convolution r2.
Proof.
  intros T1 T2 E. rewrite !regular_filename_parts in E.
  apply append_eq_length in E; [|now rewrite !generated_head_length].
  destruct E as [Eh E]. apply head_class in Eh.
  simpl in E. injection E as E.
  apply digits_then_other in E;
    [|now apply all_digits_date ..|reflexivity|reflexivity].
  destruct E as [Ed E]. injection E as E.
  apply append_eq_length in E; [|now rewrite !time_digits_length].
  destruct E as [Et Es].
  destruct (date_digits_inj _ _ T1 T2 Ed) as (Ey & Emo & Eda).
  destruct (time_digits_inj _ _ T1 T2 Et) as (Eho & Emi & Ese).
  split; [exact Eh|]. split.
  - unfold Datetime.to_second. congruence.
  - apply name_suffix_inj; [|exact Es]. unfold extension. now rewrite Eh.
Qed.

(** X15.  The planner handles the records of one modification time in
    the order of its input: of the records it has handled, those
    modified at a time [d] are, in order, those of the input modified at
    [d] (with the index and convolution it gave them). *)
Theorem equal_times_handled_in_input_order
    (fuel : nat) (out_path : string) (files : list file) (d : datetime) :
  List.length files <= fuel ->
  exists st,
    out_mode fuel out_path files = Some st
    /\ Forall2 same_source (modified_at d files) (modified_at d (handled st)).
Proof.
  intros L.
  destruct (copy_loop_total fuel out_path (sorted files) plan_init)
    as (st & gs & R & S & H & _).
  { simpl. now rewrite sorted_length. }
  simpl in H. subst gs. unfold out_mode. rewrite R.
  eexists. split; [reflexivity|]. cbn [handled].
  rewrite <- (modified_at_sorted d files).
  now apply modified_at_same_source.
Qed.

End MoreNames.

(** ** The further properties at concrete inputs *)

Lemma collision_loop_least_free_witness :
  let names := ["IMG_20200101_120000.jpg"; "IMG_20200101_120000_1.jpg"] in
  let r := PictureFile_init (still_stat noon) "DCIM/DSC_0003.JPG" 3 0 in
  List.length names < 3
  /\ exists r',
       bump 3 names (set_convolution 0 r) = Some r'
       /\ r' = set_convolution (_convolution r') r
       /\ ~ In (regular_filename r') names
       /\ (forall c, c < _convolution r' ->
                     In (regular_filename (set_convolution c r)) names)
       /\ _convolution r' <= List.length names.
Proof.
  intros names r.
  assert (L : List.length names < 3) by (simpl; lia).
  split; [exact L|]. exact (collision_loop_least_free names 3 r L).
Defined.

Lemma classified_record_gets_new_name_witness :
  List.length colliding_files <= 2
  /\ exists st,
       out_mode 2 "OUT" colliding_files = Some st
       /\ new_filenames st = map filename (handled st)
       /\ classified_names_new (handled st).
Proof.
  assert (L : List.length colliding_files <= 2) by (vm_compute; lia).
  split; [exact L|].
  exact (classified_record_gets_new_name 2 "OUT" colliding_files L).
Defined.


Lemma counters_and_indexes_witness :
  List.length spread <= 3
  /\ exists st,
       out_mode 3 "OUT" spread = Some st
       /\ pics st = List.length (of_class PictureFile spread)
       /\ vids st = List.length (of_class VideoFile spread)
       /\ other st = List.length (generic_records spread)
       /\ pics st + vids st + other st = List.length spread
       /\ indexes_of PictureFile (handled st) = seq 1 (pics st)
       /\ indexes_of VideoFile (handled st) = seq 1 (vids st).
Proof.
  assert (L : List.length spread <= 3) by (simpl; lia).
  split; [exact L|]. exact (counters_and_indexes 3 "OUT" spread L).
Defined.

Lemma classified_run_overwrites_nothing_witness :
  Forall (fun f => is_regular f = true) burst
  /\ List.length burst <= 3
  /\ exists st,
       out_mode 3 "OUT" burst = Some st
       /\ NoDup (new_filenames st)
       /\ NoDup (map snd (copied st)).
Proof.
  assert (R : Forall (fun f => is_regular f = true) burst)
    by (repeat constructor).
  assert (L : List.length burst <= 3) by (simpl; lia).
  split; [exact R|]. split; [exact L|].
  exact (classified_run_overwrites_nothing 3 "OUT" burst R L).
Defined.

Lemma index_and_convolution_read_in_decimal_witness :
  camera_parts "DSC" "0042" (Some "7") "JPG"
  /\ Str.basename "DCIM/DSC_0042_7.JPG"
     = (camera_name "DSC" "0042" (Some "7") "JPG" ++ "")%string
  /\ exists r,
       parse_file (still_stat noon) "DCIM/DSC_0042_7.JPG" = Ok [Regular r]
       /\ decimal_value "0042" = Some (_index r)
       /\ decimal_value "7" = Some (_convolution r)
       /\ _index r < 10 ^ 4
       /\ _convolution r < 10 ^ 3.
Proof.
  assert (P : camera_parts "DSC" "0042" (Some "7") "JPG").
  { split; [now left|]. split; [split; [simpl; lia | reflexivity]|].
    split; [split; [simpl; lia | reflexivity] | now left]. }
  assert (E : Str.basename "DCIM/DSC_0042_7.JPG"
              = (camera_name "DSC" "0042" (Some "7") "JPG" ++ "")%string)
    by reflexivity.
  split; [exact P|]. split; [exact E|].
  exact (index_and_convolution_read_in_decimal (still_stat noon)
           "DCIM/DSC_0042_7.JPG" "DSC" "0042" (Some "7") "JPG" ""
           P (or_introl eq_refl) E).
Defined.

Lemma generated_name_is_classified_generic_witness :
  let r := PictureFile_init (still_stat noon) "DCIM/DSC_0001.JPG" 1 0 in
  Str.basename "OUT/IMG_20200101_120000.jpg" = regular_filename r
  /\ parse_file (still_stat noon) "OUT/IMG_20200101_120000.jpg"
     = Ok [Plain (Mediafile_init (still_stat noon)
                    "OUT/IMG_20200101_120000.jpg")].
Proof.
  intros r.
  assert (E : Str.basename "OUT/IMG_20200101_120000.jpg" = regular_filename r)
    by reflexivity.
  split; [exact E|].
  exact (generated_name_is_classified_generic (still_stat noon)
           "OUT/IMG_20200101_120000.jpg" r E).
Defined.

Lemma listed_name_decides_classification_witness :
  no_sep "DSC_0001.JPG" = true
  /\ is_ascii "DSC_0001.JPG" = true
  /\ exists f,
       parse_file (still_stat noon) (Str.join "DCIM" "DSC_0001.JPG") = Ok [f]
       /\ path f = Str.join "DCIM" "DSC_0001.JPG"
       /\ _filename (base_of f) = "DSC_0001.JPG"
       /\ (is_regular f = true
           <-> accepted "DSC" "DSC_0001.JPG" \/ accepted "MOV" "DSC_0001.JPG").
Proof.
  assert (N : no_sep "DSC_0001.JPG" = true) by reflexivity.
  assert (A : is_ascii "DSC_0001.JPG" = true) by reflexivity.
  split; [exact N|]. split; [exact A|].
  exact (listed_name_decides_classification (still_stat noon)
           "DCIM" "DSC_0001.JPG" N A).
Defined.

Lemma reported_extremes_independent_of_order_witness :
  Permutation sample_run (List.rev sample_run)
  /\ option_map last_access (min_atime (analysis_of sample_run))
     = option_map last_access (min_atime (analysis_of (List.rev sample_run)))
  /\ option_map _convolution (min_convolution (analysis_of sample_run))
     = option_map _convolution
         (min_convolution (analysis_of (List.rev sample_run))).
Proof.
  assert (P : Permutation sample_run (List.rev sample_run))
    by apply Permutation_rev.
  split; [exact P|].
  pose proof (reported_extremes_independent_of_order
                sample_run (List.rev sample_run) P) as H.
  cbv zeta in H. split; [apply H|]. apply H.
Defined.

Lemma plan_independent_of_listing_order_witness :
  Permutation spread (List.rev spread)
  /\ distinct_mtimes spread
  /\ out_mode 3 "OUT" spread = out_mode 3 "OUT" (List.rev spread).
Proof.
  assert (P : Permutation spread (List.rev spread)) by apply Permutation_rev.
  assert (D : distinct_mtimes spread).
  { unfold distinct_mtimes. simpl.
    repeat constructor; simpl; intuition discriminate. }
  split; [exact P|]. split; [exact D|].
  exact (plan_independent_of_listing_order 3 "OUT" spread (List.rev spread) P D).
Defined.

Lemma analyze_without_camera_names_stops_the_script_witness :
  (forall name, In name (plain_listing "DCIM") ->
     no_sep name = true /\ is_ascii name = true
     /\ ~ accepted "DSC" name /\ ~ accepted "MOV" name)
  /\ main 2 plain_listing (still_stat noon) true (Some "OUT") "DCIM"
     = Raise AttributeError.
Proof.
  assert (N : forall name, In name (plain_listing "DCIM") ->
            no_sep name = true /\ is_ascii name = true
            /\ ~ accepted "DSC" name /\ ~ accepted "MOV" name).
  { intros name [<-|[<-|[]]]; (split; [reflexivity|]);
      (split; [reflexivity|]); split; intros A;
      apply ClassifierFacts.accepted_camera in A; auto;
      destruct A as (i & c & e & t & _ & _ & E); discriminate E. }
  split; [exact N|].
  exact (analyze_without_camera_names_stops_the_script 2 plain_listing
           (still_stat noon) (Some "OUT") "DCIM" N).
Defined.

Lemma analysis_leaves_the_copying_as_it_is_witness :
  exists lines c,
    main 2 camera_listing (still_stat noon) true (Some "OUT") "DCIM"
    = Ok (lines, c)
    /\ main 2 camera_listing (still_stat noon) false (Some "OUT") "DCIM"
       = Ok ([], c).
Proof.
  destruct (main 2 camera_listing (still_stat noon) true (Some "OUT") "DCIM")
    as [[lines c]|e] eqn:E.
  - exists lines, c. split; [reflexivity|].
    exact (analysis_leaves_the_copying_as_it_is 2 camera_listing
             (still_stat noon) (Some "OUT") "DCIM" lines c E).
  - vm_compute in E. discriminate E.
Defined.

Lemma same_name_same_class_second_convolution_witness :
  let r1 := PictureFile_init (still_stat noon) "DCIM/DSC_0001.JPG" 1 2 in
  let r2 := PictureFile_init
              (still_stat (mk_datetime 2020 1 1 12 0 0 500))
              "DCIM/DSC_0002.JPG" 2 2 in
  two_digit_fields (st_mtime (_stat (media r1)))
  /\ two_digit_fields (st_mtime (_stat (media r2)))
  /\ regular_filename r1 = regular_filename r2
  /\ class_of r1 = class_of r2
  /\ Datetime.to_second (st_mtime (_stat (media r1)))
     = Datetime.to_second (st_mtime (_stat (media r2)))
  /\ _convolution r1 = _convolution r2.
Proof.
  intros r1 r2.
  assert (T1 : two_digit_fields (st_mtime (_stat (media r1))))
    by (unfold two_digit_fields; simpl; lia).
  assert (T2 : two_digit_fields (st_mtime (_stat (media r2))))
    by (unfold two_digit_fields; simpl; lia).
  assert (E : regular_filename r1 = regular_filename r2) by reflexivity.
  split; [exact T1|]. split; [exact T2|]. split; [exact E|].
  exact (same_name_same_class_second_convolution r1 r2 T1 T2 E).
Defined.

Lemma equal_times_handled_in_input_order_witness :
  List.length burst <= 3
  /\ exists st,
       out_mode 3 "OUT" burst = Some st
       /\ Forall2 same_source (modified_at noon burst)
            (modified_at noon (handled st)).
Proof.
  assert (L : List.length burst <= 3) by (simpl; lia).
  split; [exact L|].
  exact (equal_times_handled_in_input_order 3 "OUT" burst noon L).
Defined.
